(** * RescueMesh matching service: a shallow embedding of the matching engine

    The development follows [services/matchingService.js] (scoring, the two
    matchers, persistence and the orchestration pipeline) and
    [routes/matching.js] (the accept / reject lifecycle routes) together with
    the table declared in [config/database.js].

    Numbers.  JavaScript numbers are modelled as exact rationals ([Q]): the
    scoring formula only uses [+ - * /], [Math.max] and [Math.min], and every
    decimal literal of the source ([0.4], [0.3], [1.2], ...) is a rational.
    Equality of scores is therefore [Qeq] ([==]).  A second, binary64 reading
    of the scoring function over the kernel's primitive floats is given in
    [Module Binary64] and evaluated on the concrete inputs used below.

    Effects.  Every function of the service that awaits a collaborator is a
    computation in the monad [M]: it threads a [World] (the matches table, the
    HTTP calls issued, the queue messages published) and completes either
    normally or by throwing.  What the collaborators answer is supplied by an
    [Env] of oracles indexed by the number of external interactions so far.
    Calls to [logger] only write diagnostics and are left out.

    The first part of the file holds the embedding and the vocabulary of the
    statements; the second part the properties and their proofs. *)

From Stdlib Require Import QArith Qminmax Qround Lqa ZArith Lia.
From Stdlib Require Import DecimalString.
From Stdlib Require Import String Ascii List Bool Arith.
From Stdlib Require Import Sorted Permutation.
Import ListNotations.

Open Scope string_scope.
Open Scope list_scope.
Open Scope Q_scope.

(* ------------------------------------------------------------------ *)
(** ** Data read from the registries *)

Record Location := mkLocation {
  latitude : Q;
  longitude : Q
}.

(** A skill record as returned by [GET /api/skills].  [trustScore] may be
    absent ([None] stands for [undefined]). *)
Record Skill := mkSkill {
  skill_userId : string;
  skill_skillId : string;
  skill_skillType : string;
  skill_availability : string;
  skill_verified : bool;
  skill_trustScore : option Q;
  skill_certificationLevel : string;
  skill_location : Location
}.

(** A resource record as returned by [GET /api/resources]. *)
Record Resource := mkResource {
  resource_resourceId : string;
  resource_resourceType : string;
  resource_userId : string;
  resource_availability : string;
  resource_location : Location
}.

(** The environment-driven tunables ([process.env.*] with their fallbacks
    already applied and parsed). *)
Record Config := mkConfig {
  MAX_MATCH_RADIUS : Q;            (* parseFloat(env || 50) *)
  MATCH_SCORE_THRESHOLD : Q;       (* parseFloat(env || 5.0) *)
  MAX_MATCHES_PER_REQUEST : Z      (* parseInt(env || 10) *)
}.

Definition defaultConfig : Config := mkConfig 50 5 10.

(* ------------------------------------------------------------------ *)
(** ** ScoringEngine: [calculateMatchScore] *)

(** [x || d] on a possibly absent number: [undefined] and [0] are both falsy,
    so both select the default. *)
Definition orDefault (x : option Q) (d : Q) : Q :=
  match x with
  | Some q => if Qeq_bool q 0 then d else q
  | None => d
  end.

Definition urgencyMultiplier (urgency : string) : Q :=
  if (urgency =? "critical")%string then 1.2
  else if (urgency =? "high")%string then 1.1
  else 1.0.

Definition calculateMatchScore (cfg : Config) (skill : Skill) (distance : Q)
    (urgency : string) : Q :=
  let score := 0 in
  (* Trust score (0-10) contributes 40% *)
  let score := score + orDefault (skill_trustScore skill) 5.0 * 0.4 in
  (* Distance score (closer is better, 0-10) contributes 30% *)
  let maxDistance := MAX_MATCH_RADIUS cfg in
  let distanceScore := Qmax 0 (10 - (distance / maxDistance) * 10) in
  let score := score + distanceScore * 0.3 in
  (* Urgency multiplier *)
  let score := score * urgencyMultiplier urgency in
  (* Certification level bonus *)
  let score :=
    if (skill_certificationLevel skill =? "expert")%string then score + 1.0
    else if (skill_certificationLevel skill =? "intermediate")%string
         then score + 0.5
         else score in
  Qmin 10 score.

(** The formula as the specification words it (section 4.1): the trust score
    is the candidate's own when present and 5.0 when absent. *)
Definition spec_trust (t : option Q) : Q :=
  match t with Some q => q | None => 5.0 end.

Definition spec_multiplier (urgency : string) : Q :=
  if (urgency =? "critical")%string then 1.2
  else if (urgency =? "high")%string then 1.1
  else 1.0.

Definition spec_bonus (certification : string) : Q :=
  if (certification =? "expert")%string then 1.0
  else if (certification =? "intermediate")%string then 0.5
  else 0.

Definition spec_score (trust : option Q) (distance maxRadius : Q)
    (urgency certification : string) : Q :=
  let base := spec_trust trust * 0.4
              + Qmax 0 (10 - (distance / maxRadius) * 10) * 0.3 in
  Qmin 10 (base * spec_multiplier urgency + spec_bonus certification).

(** A candidate's trust score is valid when absent or within [0, 10]. *)
Definition validTrust (t : option Q) : Prop :=
  match t with Some q => 0 <= q /\ q <= 10 | None => True end.


(* ------------------------------------------------------------------ *)
(** ** Disaster-skill mapping *)

(** The own properties of the object literal [DISASTER_SKILL_MAP], in source
    order. *)
Definition DISASTER_SKILL_MAP : list (string * list string) :=
  [ ("flood", ["boat_operator"; "swimmer"; "medic"; "rescue_diver"]);
    ("earthquake", ["rescuer"; "structural_engineer"; "medic"; "heavy_lifting"]);
    ("cyclone", ["shelter_manager"; "logistics"; "medic"; "evacuation_specialist"]);
    ("fire", ["firefighter"; "electrician"; "medic"; "smoke_diver"]);
    ("tsunami", ["rescue_diver"; "medic"; "boat_operator"; "swimmer"]);
    ("landslide", ["rescuer"; "medic"; "heavy_lifting"; "structural_engineer"]) ].

(** An object literal inherits from [Object.prototype]: indexing it with one
    of these keys yields a function (or, for [__proto__], the prototype
    object) instead of [undefined].  All of them are truthy and none is
    iterable. *)
Definition Object_prototype_keys : list string :=
  [ "constructor"; "toString"; "toLocaleString"; "valueOf"; "hasOwnProperty";
    "isPrototypeOf"; "propertyIsEnumerable"; "__proto__";
    "__defineGetter__"; "__defineSetter__";
    "__lookupGetter__"; "__lookupSetter__" ].

Fixpoint assoc {V : Type} (k : string) (m : list (string * V)) : option V :=
  match m with
  | [] => None
  | (k', v) :: m' => if (k' =? k)%string then Some v else assoc k m'
  end.

Definition mem (k : string) (l : list string) : bool :=
  existsb (fun k' => (k' =? k)%string) l.

(** What [for (const x of v)] can be handed in [findSkillMatches]: an array
    of tags, or a value that is not iterable (the loop then throws a
    [TypeError] before its first iteration). *)
Inductive Iterable :=
  | Arr (tags : list string)
  | NotIterable.

(** [DISASTER_SKILL_MAP[disasterType] || []] *)
Definition relevantSkills (disasterType : string) : Iterable :=
  match assoc disasterType DISASTER_SKILL_MAP with
  | Some tags => Arr tags
  | None =>
      if mem disasterType Object_prototype_keys then NotIterable else Arr []
  end.

(** [requiredSkills.length > 0 ? requiredSkills : relevantSkills] *)
Definition skillsToFind (disasterType : string) (requiredSkills : list string)
    : Iterable :=
  if (0 <? length requiredSkills)%nat then Arr requiredSkills
  else relevantSkills disasterType.

(** The tags the loop of [findSkillMatches] visits. *)
Definition searchedTags (disasterType : string) (requiredSkills : list string)
    : list string :=
  match skillsToFind disasterType requiredSkills with
  | Arr tags => tags
  | NotIterable => []
  end.

(** The six disaster types of the request schema
    ([middleware/validation.js]). *)
Definition disasterTypes : list string :=
  [ "flood"; "earthquake"; "cyclone"; "fire"; "tsunami"; "landslide" ].

(* ------------------------------------------------------------------ *)
(** ** Array helpers: [sort] and [slice] *)

Section ArraySort.
Context {A : Type}.
(** The comparator of [Array.prototype.sort]: a negative result puts its
    first argument first, a positive one its second. *)
Variable compareFn : A -> A -> Q.

(** [x] precedes every element of [l] in the input; it is placed in front
    of the first element it does not have to follow, which keeps equal
    elements in input order (the sort is stable). *)
Fixpoint insertSorted (x : A) (l : list A) : list A :=
  match l with
  | [] => [x]
  | y :: l' =>
      if Qle_bool (compareFn x y) 0 then x :: y :: l'
      else y :: insertSorted x l'
  end.

Definition sort (l : list A) : list A := fold_right insertSorted [] l.
End ArraySort.

(** [arr.slice(0, end)] for an integer [end]: a negative [end] counts from
    the back of the array. *)
Definition slice0 {A : Type} (l : list A) (end_ : Z) : list A :=
  if (end_ <? 0)%Z
  then firstn (Z.to_nat (Z.max (Z.of_nat (length l) + end_) 0)) l
  else firstn (Z.to_nat end_) l.

(* ------------------------------------------------------------------ *)
(** ** Match candidates produced by the matchers *)

(** The object pushed by [findSkillMatches]. *)
Record SkillMatch := mkSkillMatch {
  sm_volunteerId : string;
  sm_skillId : string;
  sm_skillType : string;
  sm_matchScore : Q;
  sm_distance : Q;
  sm_trustScore : Q;
  sm_availability : string
}.

(** The object pushed by [findResourceMatches]. *)
Record ResourceMatch := mkResourceMatch {
  rm_resourceId : string;
  rm_resourceType : string;
  rm_ownerId : string;
  rm_distance : Q
}.

(** [{ ...match, matchId }] as collected in [savedMatches]. *)
Inductive SavedMatch :=
  | SavedSkill (m : SkillMatch) (matchId : string)
  | SavedResource (m : ResourceMatch) (matchId : string).

Definition saved_matchId (s : SavedMatch) : string :=
  match s with SavedSkill _ i => i | SavedResource _ i => i end.

(* ------------------------------------------------------------------ *)
(** ** The matches table ([config/database.js]) *)

(** One row of [matches].  Nullable columns are options; timestamps are
    readings of the world clock.  Numeric columns hold the value written
    (the rounding of [DECIMAL(n,2)] is not modelled). *)
Record MatchRow := mkMatchRow {
  match_id : string;                  (* PRIMARY KEY *)
  request_id : string;
  volunteer_id : string;
  skill_id : option string;
  resource_id : option string;
  skill_type : option string;
  resource_type : option string;
  match_score : Q;
  distance : option Q;
  trust_score : option Q;
  status : string;                    (* DEFAULT 'pending' *)
  created_at : nat;                   (* DEFAULT CURRENT_TIMESTAMP *)
  accepted_at : option nat;
  rejected_at : option nat;
  rejection_reason : option string;
  updated_at : nat                    (* DEFAULT CURRENT_TIMESTAMP *)
}.

(* ------------------------------------------------------------------ *)
(** ** The world, the collaborators and the effect monad *)

Inductive HttpCall :=
  | GET_disaster (disasterId : string)
  | GET_skills (disasterType : string) (location : Location) (radius : Q)
  | GET_resources (disasterType : string) (location : Location) (radius : Q)
  | PUT_status (requestId : string) (newStatus : string).

Inductive QueueMessage :=
  | match_created (matchId requestId : string) (volunteerId : option string)
      (skillType resourceType : option string)
  | match_accepted (matchId requestId volunteerId : string).

Record World := mkWorld {
  matches_table : list MatchRow;      (* rows in insertion order *)
  http_log : list HttpCall;           (* requests issued, oldest first *)
  queue : list (string * QueueMessage); (* (queue name, message), oldest first *)
  clock : nat                         (* external interactions so far *)
}.

(** What the outside answers.  Each oracle is asked at the current clock
    reading.  [None] from a service stands for a failed call (time-out,
    connection error, non-2xx status); [Some None] from a registry for a body
    without the [skills] / [resources] field.  A disaster body without
    [disasterType] reads as the property key ["undefined"].
    [calculateDistance] is the function of [utils/distance], which is not
    part of the sources at hand. *)
Record Env := mkEnv {
  disasterService : nat -> option string;
  skillService : nat -> option (option (list Skill));
  resourceService : nat -> option (option (list Resource));
  sosService : nat -> bool;
  storeAvailable : nat -> bool;
  uuidv4 : nat -> string;
  calculateDistance : Q -> Q -> Q -> Q -> Q
}.

Inductive Completion (A : Type) :=
  | Normal (a : A)
  | Throw (error : string).
Arguments Normal {A} a.
Arguments Throw {A} error.

Definition M (A : Type) : Type := World -> Completion A * World.

Definition ret {A} (a : A) : M A := fun w => (Normal a, w).

Definition bind {A B} (m : M A) (k : A -> M B) : M B :=
  fun w =>
    match m w with
    | (Normal a, w') => k a w'
    | (Throw e, w') => (Throw e, w')
    end.

Definition throw {A} (e : string) : M A := fun w => (Throw e, w).

(** [try { m } catch (error) { handler(error) }] *)
Definition tryCatch {A} (m : M A) (handler : string -> M A) : M A :=
  fun w =>
    match m w with
    | (Normal a, w') => (Normal a, w')
    | (Throw e, w') => handler e w'
    end.

Declare Scope js_scope.
Delimit Scope js_scope with js.
Notation "x <- m ;; k" := (bind m (fun x => k))
  (at level 100, m at next level, right associativity) : js_scope.
Notation "m ;;; k" := (bind m (fun _ => k))
  (at level 100, right associativity) : js_scope.
Open Scope js_scope.

(** [for (const x of l) body], with the variables the body assigns threaded
    as [acc]. *)
Fixpoint forOf {A B} (l : list A) (body : B -> A -> M B) (acc : B) : M B :=
  match l with
  | [] => ret acc
  | x :: l' => acc' <- body acc x ;; forOf l' body acc'
  end.

(** Read the clock and advance it. *)
Definition tick : M nat :=
  fun w => (Normal (clock w),
            mkWorld (matches_table w) (http_log w) (queue w) (S (clock w))).

Definition logHttp (c : HttpCall) : M unit :=
  fun w => (Normal tt,
            mkWorld (matches_table w) (http_log w ++ [c]) (queue w) (clock w)).

Definition axios_get_disaster (E : Env) (disasterId : string) : M string :=
  logHttp (GET_disaster disasterId) ;;;
  t <- tick ;;
  match disasterService E t with
  | Some disasterType => ret disasterType
  | None => throw "AxiosError"
  end.

Definition axios_get_skills (E : Env) (disasterType : string)
    (location : Location) (radius : Q) : M (option (list Skill)) :=
  logHttp (GET_skills disasterType location radius) ;;;
  t <- tick ;;
  match skillService E t with
  | Some data => ret data
  | None => throw "AxiosError"
  end.

Definition axios_get_resources (E : Env) (disasterType : string)
    (location : Location) (radius : Q) : M (option (list Resource)) :=
  logHttp (GET_resources disasterType location radius) ;;;
  t <- tick ;;
  match resourceService E t with
  | Some data => ret data
  | None => throw "AxiosError"
  end.

Definition axios_put_status (E : Env) (requestId newStatus : string) : M unit :=
  logHttp (PUT_status requestId newStatus) ;;;
  t <- tick ;;
  if sosService E t then ret tt else throw "AxiosError".

(** Modelled from the spec: [publishToQueue] of [config/messageQueue], which
    is not among the sources at hand.  The event publisher is best-effort and
    fire-and-forget: the message is handed to the named queue, nothing is
    awaited and no failure reaches the caller. *)
Definition publishToQueue (queueName : string) (msg : QueueMessage) : M unit :=
  fun w => (Normal tt,
            mkWorld (matches_table w) (http_log w) (queue w ++ [(queueName, msg)])
                    (clock w)).

Definition uuid (E : Env) : M string :=
  t <- tick ;; ret (uuidv4 E t).

(* ------------------------------------------------------------------ *)
(** ** MatchStore: statements issued through [pool.query] *)

Definition setTable (w : World) (rows : list MatchRow) : World :=
  mkWorld rows (http_log w) (queue w) (clock w).

(** [INSERT INTO matches (...) VALUES (...)]: fails when the store is
    unavailable or the primary key is already present. *)
Definition pool_insert (E : Env) (row : nat -> MatchRow) : M unit :=
  t <- tick ;;
  fun w =>
    if storeAvailable E t
       && negb (existsb (fun r => (match_id r =? match_id (row t))%string)
                        (matches_table w))
    then (Normal tt, setTable w (matches_table w ++ [row t]))
    else (Throw "DatabaseError", w).

(** [UPDATE matches SET ... WHERE ... RETURNING *]: every row satisfying the
    condition is rewritten, and the rewritten rows are returned. *)
Definition pool_update (E : Env) (condition : MatchRow -> bool)
    (assign : nat -> MatchRow -> MatchRow) : M (list MatchRow) :=
  t <- tick ;;
  fun w =>
    if storeAvailable E t
    then (Normal (map (assign t) (filter condition (matches_table w))),
          setTable w (map (fun r => if condition r then assign t r else r)
                          (matches_table w)))
    else (Throw "DatabaseError", w).

Definition saveMatch (E : Env) (matchId requestId : string) (m : SkillMatch)
    : M unit :=
  tryCatch
    (pool_insert E (fun now =>
       mkMatchRow matchId requestId (sm_volunteerId m)
                  (Some (sm_skillId m)) None
                  (Some (sm_skillType m)) None
                  (sm_matchScore m) (Some (sm_distance m))
                  (Some (sm_trustScore m))
                  "pending" now None None None now))
    (fun error => throw error).

Definition saveResourceMatch (E : Env) (matchId requestId : string)
    (m : ResourceMatch) : M unit :=
  tryCatch
    (pool_insert E (fun now =>
       mkMatchRow matchId requestId (rm_ownerId m)
                  None (Some (rm_resourceId m))
                  None (Some (rm_resourceType m))
                  8.0 (* Default score for resources *)
                  (Some (rm_distance m))
                  None
                  "pending" now None None None now))
    (fun error => throw error).

(* ------------------------------------------------------------------ *)
(** ** SkillMatcher and ResourceMatcher *)

Definition skillFilter (skillType : string) (skill : Skill) : bool :=
  (skill_skillType skill =? skillType)%string
  && (skill_availability skill =? "available")%string
  && skill_verified skill.

Definition skillDistance (E : Env) (location : Location) (skill : Skill) : Q :=
  calculateDistance E (latitude location) (longitude location)
    (latitude (skill_location skill)) (longitude (skill_location skill)).

(** The body of the inner loop: score one filtered skill and push it when it
    reaches the threshold. *)
Definition scoreSkill (E : Env) (cfg : Config) (location : Location)
    (urgency : string) (matches : list SkillMatch) (skill : Skill)
    : list SkillMatch :=
  let distance := skillDistance E location skill in
  let matchScore := calculateMatchScore cfg skill distance urgency in
  if Qle_bool (MATCH_SCORE_THRESHOLD cfg) matchScore
  then matches ++ [ mkSkillMatch (skill_userId skill) (skill_skillId skill)
                      (skill_skillType skill) matchScore distance
                      (orDefault (skill_trustScore skill) 5.0)
                      (skill_availability skill) ]
  else matches.

Definition orEmpty {A} (x : option (list A)) : list A :=
  match x with Some l => l | None => [] end.

(** One iteration of the loop over [skillsToFind], with its own
    [try]/[catch]. *)
Definition skillTagStep (E : Env) (cfg : Config) (disasterType : string)
    (location : Location) (urgency : string)
    (matches : list SkillMatch) (skillType : string) : M (list SkillMatch) :=
  tryCatch
    (data <- axios_get_skills E disasterType location (MAX_MATCH_RADIUS cfg) ;;
     let availableSkills := orEmpty data in
     let filteredSkills := filter (skillFilter skillType) availableSkills in
     ret (fold_left (scoreSkill E cfg location urgency) filteredSkills matches))
    (fun _ => ret matches).

Definition byScoreDesc (a b : SkillMatch) : Q := sm_matchScore b - sm_matchScore a.

Definition findSkillMatches (E : Env) (cfg : Config) (disasterType : string)
    (requiredSkills : list string) (location : Location) (urgency : string)
    : M (list SkillMatch) :=
  tryCatch
    (match skillsToFind disasterType requiredSkills with
     | NotIterable => throw "TypeError"
     | Arr tags =>
         matches <- forOf tags (skillTagStep E cfg disasterType location urgency) [] ;;
         ret (slice0 (sort byScoreDesc matches) (MAX_MATCHES_PER_REQUEST cfg))
     end)
    (fun _ => ret []).

Definition resourceFilter (resourceType : string) (resource : Resource) : bool :=
  (resource_resourceType resource =? resourceType)%string
  && (resource_availability resource =? "available")%string.

Definition resourceDistance (E : Env) (location : Location) (resource : Resource)
    : Q :=
  calculateDistance E (latitude location) (longitude location)
    (latitude (resource_location resource))
    (longitude (resource_location resource)).

Definition pushResource (E : Env) (location : Location)
    (matches : list ResourceMatch) (resource : Resource) : list ResourceMatch :=
  matches ++ [ mkResourceMatch (resource_resourceId resource)
                 (resource_resourceType resource) (resource_userId resource)
                 (resourceDistance E location resource) ].

Definition resourceTypeStep (E : Env) (cfg : Config) (disasterType : string)
    (location : Location)
    (matches : list ResourceMatch) (resourceType : string)
    : M (list ResourceMatch) :=
  tryCatch
    (data <- axios_get_resources E disasterType location (MAX_MATCH_RADIUS cfg) ;;
     let availableResources := orEmpty data in
     let filteredResources :=
       filter (resourceFilter resourceType) availableResources in
     ret (fold_left (pushResource E location) filteredResources matches))
    (fun _ => ret matches).

Definition byDistanceAsc (a b : ResourceMatch) : Q := rm_distance a - rm_distance b.

Definition findResourceMatches (E : Env) (cfg : Config) (disasterType : string)
    (requiredResources : list string) (location : Location) (urgency : string)
    : M (list ResourceMatch) :=
  tryCatch
    (matches <- forOf requiredResources
                  (resourceTypeStep E cfg disasterType location) [] ;;
     ret (slice0 (sort byDistanceAsc matches) (MAX_MATCHES_PER_REQUEST cfg)))
    (fun _ => ret []).

(* ------------------------------------------------------------------ *)
(** ** MatchOrchestrator: [processSOSRequest] *)

Record SOSData := mkSOSData {
  sos_requestId : string;
  sos_disasterId : string;
  sos_urgency : string;
  sos_requiredSkills : option (list string);
  sos_requiredResources : option (list string);
  sos_location : Location
}.

(** The queue names, at the fallbacks the source gives them
    ([process.env.RABBITMQ_QUEUE_NOTIFICATION || 'notifications.send'] and
    [process.env.RABBITMQ_QUEUE_SOS || 'sos.requests']). *)
Definition NOTIFICATION_QUEUE : string := "notifications.send".
Definition SOS_QUEUE : string := "sos.requests".

(** The [match.created] payload built from one element of [savedMatches]:
    [volunteerId: match.volunteerId || match.ownerId] (an empty string is
    falsy), [skillType] and [resourceType] as present on the element. *)
Definition createdEvent (requestId : string) (s : SavedMatch) : QueueMessage :=
  match s with
  | SavedSkill m matchId =>
      match_created matchId requestId
        (if (sm_volunteerId m =? "")%string then None
         else Some (sm_volunteerId m))
        (Some (sm_skillType m)) None
  | SavedResource m matchId =>
      match_created matchId requestId (Some (rm_ownerId m))
        None (Some (rm_resourceType m))
  end.

Definition persistSkill (E : Env) (requestId : string)
    (savedMatches : list SavedMatch) (m : SkillMatch) : M (list SavedMatch) :=
  u <- uuid E ;;
  let matchId := ("match-" ++ u)%string in
  saveMatch E matchId requestId m ;;;
  ret (savedMatches ++ [SavedSkill m matchId]).

Definition persistResource (E : Env) (requestId : string)
    (savedMatches : list SavedMatch) (m : ResourceMatch) : M (list SavedMatch) :=
  u <- uuid E ;;
  let matchId := ("match-" ++ u)%string in
  saveResourceMatch E matchId requestId m ;;;
  ret (savedMatches ++ [SavedResource m matchId]).

Definition notify (requestId : string) (_ : unit) (s : SavedMatch) : M unit :=
  publishToQueue NOTIFICATION_QUEUE (createdEvent requestId s).

Definition processSOSRequest (E : Env) (cfg : Config) (sosData : SOSData)
    : M (list SavedMatch) :=
  tryCatch
    (let requestId := sos_requestId sosData in
     let location := sos_location sosData in
     let urgency := sos_urgency sosData in
     (* Get disaster details *)
     disasterType <- tryCatch (axios_get_disaster E (sos_disasterId sosData))
                              (fun _ => ret "flood") ;;
     skillMatches <- findSkillMatches E cfg disasterType
                       (orEmpty (sos_requiredSkills sosData)) location urgency ;;
     resourceMatches <- findResourceMatches E cfg disasterType
                          (orEmpty (sos_requiredResources sosData))
                          location urgency ;;
     (* Save matches to database *)
     savedMatches <- forOf skillMatches (persistSkill E requestId) [] ;;
     savedMatches <- forOf resourceMatches (persistResource E requestId)
                       savedMatches ;;
     (* Update SOS request status *)
     tryCatch (axios_put_status E requestId "matched") (fun _ => ret tt) ;;;
     (* Send notifications to matched volunteers *)
     forOf savedMatches (notify requestId) tt ;;;
     ret savedMatches)
    (fun error => throw error).

(* ------------------------------------------------------------------ *)
(** ** MatchLifecycle API ([routes/matching.js]) *)

Inductive Body :=
  | NotFoundBody       (* { error: { code: 'NOT_FOUND', message: ... } } *)
  | AcceptBody (matchId status_ : string) (acceptedAt : option nat)
      (updatedAt : nat)
  | RejectBody (matchId status_ : string) (rejectedAt : option nat).

(** What a route handler does with the request: answer with a status code
    and a JSON body, or hand an error to [next]. *)
Inductive RouteResult :=
  | Json (code : nat) (body : Body)
  | Next (error : string).

Definition ownedBy (matchId volunteerId : string) (r : MatchRow) : bool :=
  (match_id r =? matchId)%string && (volunteer_id r =? volunteerId)%string.

(** [SET status = 'accepted', accepted_at = CURRENT_TIMESTAMP,
     updated_at = CURRENT_TIMESTAMP] *)
Definition setAccepted (now : nat) (r : MatchRow) : MatchRow :=
  mkMatchRow (match_id r) (request_id r) (volunteer_id r) (skill_id r)
    (resource_id r) (skill_type r) (resource_type r) (match_score r)
    (distance r) (trust_score r)
    "accepted" (created_at r) (Some now) (rejected_at r)
    (rejection_reason r) now.

(** [SET status = 'rejected', rejected_at = CURRENT_TIMESTAMP,
     rejection_reason = $2, updated_at = CURRENT_TIMESTAMP] *)
Definition setRejected (reason : option string) (now : nat) (r : MatchRow)
    : MatchRow :=
  mkMatchRow (match_id r) (request_id r) (volunteer_id r) (skill_id r)
    (resource_id r) (skill_type r) (resource_type r) (match_score r)
    (distance r) (trust_score r)
    "rejected" (created_at r) (accepted_at r) (Some now)
    reason now.

Definition acceptRoute (E : Env) (matchId volunteerId : string) : M RouteResult :=
  tryCatch
    (rows <- pool_update E (ownedBy matchId volunteerId) setAccepted ;;
     match rows with
     | [] => ret (Json 404 NotFoundBody)
     | m :: _ =>
         publishToQueue SOS_QUEUE
           (match_accepted matchId (request_id m) volunteerId) ;;;
         ret (Json 200 (AcceptBody matchId (status m) (accepted_at m)
                                   (updated_at m)))
     end)
    (fun error => ret (Next error)).

Definition rejectRoute (E : Env) (matchId volunteerId : string)
    (reason : option string) : M RouteResult :=
  tryCatch
    (rows <- pool_update E (ownedBy matchId volunteerId) (setRejected reason) ;;
     match rows with
     | [] => ret (Json 404 NotFoundBody)
     | m :: _ => ret (Json 200 (RejectBody matchId (status m) (rejected_at m)))
     end)
    (fun error => ret (Next error)).

Definition succeeded (r : Completion RouteResult) : bool :=
  match r with
  | Normal (Json 200 _) => true
  | _ => false
  end.

Definition notFound (r : Completion RouteResult) : bool :=
  match r with
  | Normal (Json 404 NotFoundBody) => true
  | _ => false
  end.

(* ------------------------------------------------------------------ *)
(** ** Reference descriptions used to state the properties *)

(** The candidates a registry answer contributes: none when the call
    failed or the body has no list. *)
Definition candidatesOf {A} (answer : option (option (list A))) : list A :=
  match answer with
  | Some data => orEmpty data
  | None => []
  end.

(** The match built from a skill record at a given request location. *)
Definition matchOfSkill (E : Env) (cfg : Config) (location : Location)
    (urgency : string) (skill : Skill) : SkillMatch :=
  mkSkillMatch (skill_userId skill) (skill_skillId skill)
    (skill_skillType skill)
    (calculateMatchScore cfg skill (skillDistance E location skill) urgency)
    (skillDistance E location skill)
    (orDefault (skill_trustScore skill) 5.0)
    (skill_availability skill).

(** A skill record qualifies for a tag when it passes the filter and its
    score reaches the threshold. *)
Definition qualifies (E : Env) (cfg : Config) (location : Location)
    (urgency tag : string) (skill : Skill) : bool :=
  skillFilter tag skill
  && Qle_bool (MATCH_SCORE_THRESHOLD cfg)
       (calculateMatchScore cfg skill (skillDistance E location skill) urgency).

(** All matches of a run over [tags] whose first registry call is made at
    clock reading [t]: tag by tag, the qualifying candidates of the answer
    received, in the order received. *)
Fixpoint collectSkills (E : Env) (cfg : Config) (location : Location)
    (urgency : string) (tags : list string) (t : nat) : list SkillMatch :=
  match tags with
  | [] => []
  | tag :: tags' =>
      map (matchOfSkill E cfg location urgency)
          (filter (qualifies E cfg location urgency tag)
                  (candidatesOf (skillService E t)))
      ++ collectSkills E cfg location urgency tags' (S t)
  end.

Definition matchOfResource (E : Env) (location : Location) (resource : Resource)
    : ResourceMatch :=
  mkResourceMatch (resource_resourceId resource)
    (resource_resourceType resource) (resource_userId resource)
    (resourceDistance E location resource).

Fixpoint collectResources (E : Env) (location : Location)
    (types : list string) (t : nat) : list ResourceMatch :=
  match types with
  | [] => []
  | ty :: types' =>
      map (matchOfResource E location)
          (filter (resourceFilter ty) (candidatesOf (resourceService E t)))
      ++ collectResources E location types' (S t)
  end.

(** Where an element of a skill result comes from: a record [skill] of the
    pool answered to the [i]-th registry call of the run, searched under
    the [i]-th tag. *)
Definition skillProvenance (E : Env) (cfg : Config) (location : Location)
    (urgency : string) (tags : list string) (t0 : nat) (m : SkillMatch) : Prop :=
  exists (i : nat) (tag : string) (pool : list Skill) (skill : Skill),
    nth_error tags i = Some tag
    /\ candidatesOf (skillService E (t0 + i)) = pool
    /\ In skill pool
    /\ skill_skillType skill = tag
    /\ skill_availability skill = "available"
    /\ skill_verified skill = true
    /\ MATCH_SCORE_THRESHOLD cfg
       <= calculateMatchScore cfg skill (skillDistance E location skill) urgency
    /\ m = matchOfSkill E cfg location urgency skill.

Definition resourceProvenance (E : Env) (location : Location)
    (types : list string) (t0 : nat) (m : ResourceMatch) : Prop :=
  exists (i : nat) (ty : string) (pool : list Resource) (resource : Resource),
    nth_error types i = Some ty
    /\ candidatesOf (resourceService E (t0 + i)) = pool
    /\ In resource pool
    /\ resource_resourceType resource = ty
    /\ resource_availability resource = "available"
    /\ m = matchOfResource E location resource.

(** The records of one run still to be persisted, skills first. *)
Definition toPersist (skillMatches : list SkillMatch)
    (resourceMatches : list ResourceMatch) : list (SkillMatch + ResourceMatch) :=
  map inl skillMatches ++ map inr resourceMatches.

Definition persistOne (E : Env) (requestId : string)
    (savedMatches : list SavedMatch) (m : SkillMatch + ResourceMatch)
    : M (list SavedMatch) :=
  match m with
  | inl s => persistSkill E requestId savedMatches s
  | inr r => persistResource E requestId savedMatches r
  end.

(** The first step of the pipeline: the disaster type answered by the
    registry, or ["flood"] when the call fails. *)
Definition resolveDisasterType (E : Env) (disasterId : string) : M string :=
  tryCatch (axios_get_disaster E disasterId) (fun _ => ret "flood").

Definition isStatusPut (c : HttpCall) : bool :=
  match c with PUT_status _ _ => true | _ => false end.

(** The world after a run of registry or disaster calls: the calls are
    appended to the log and the clock has advanced by their number. *)
Definition afterCalls (w : World) (calls : list HttpCall) : World :=
  mkWorld (matches_table w) (http_log w ++ calls) (queue w)
          (length calls + clock w).

(** The orders the two matchers sort by. *)
Definition scoreDescending (a b : SkillMatch) : Prop :=
  sm_matchScore b <= sm_matchScore a.

Definition distanceAscending (a b : ResourceMatch) : Prop :=
  rm_distance a <= rm_distance b.

(* ------------------------------------------------------------------ *)
(** ** Concrete data used to exercise the statements *)

Definition workedSkill : Skill :=
  mkSkill "u1" "s1" "medic" "available" true (Some 8) "expert" (mkLocation 0 0).

Definition zeroTrustSkill : Skill :=
  mkSkill "u1" "s1" "medic" "available" true (Some 0) "none" (mkLocation 0 0).

Definition secondMedic : Skill :=
  mkSkill "u2" "s2" "medic" "available" true (Some 9) "none" (mkLocation 0 0).

Definition boat : Resource :=
  mkResource "r1" "boat" "owner1" "available" (mkLocation 0 0).

(** Every collaborator is down; the store works. *)
Definition quietEnv : Env :=
  mkEnv (fun _ => None) (fun _ => None) (fun _ => None) (fun _ => true)
        (fun _ => true) (fun _ => "0") (fun _ _ _ _ => 0).

(** The first registry call of a run fails; every later one answers the two
    medics (and one boat for resources).  Distances are all 0. *)
Definition medicEnv : Env :=
  mkEnv (fun _ => None)
        (fun t => if (t <=? 1)%nat then None
                  else Some (Some [workedSkill; secondMedic]))
        (fun _ => Some (Some [boat]))
        (fun _ => true) (fun _ => true)
        (fun t => match t with 0%nat => "a" | 1%nat => "b" | 2%nat => "c"
                           | 3%nat => "d" | 4%nat => "e" | 5%nat => "f"
                           | 6%nat => "g" | 7%nat => "h" | 8%nat => "i"
                           | _ => "z" end)
        (fun _ _ _ _ => 0).

Definition emptyWorld : World := mkWorld [] [] [] 0.

(** [E] with the skill registry's answer at clock reading [t] replaced by a
    successful, empty answer. *)
Definition answerEmptyAt (E : Env) (t : nat) : Env :=
  mkEnv (disasterService E)
        (fun t' => if (t' =? t)%nat then Some (Some []) else skillService E t')
        (resourceService E) (sosService E) (storeAvailable E) (uuidv4 E)
        (calculateDistance E).

Definition oneMatchConfig : Config := mkConfig 50 5 1.

Definition boatMatch : ResourceMatch := mkResourceMatch "r1" "boat" "owner1" 0.

(** The steps of the pipeline that precede persistence: resolve the
    disaster type, run both matchers, and line up what is to be saved. *)
Definition matchingPhase (E : Env) (cfg : Config) (sosData : SOSData)
    : M (list (SkillMatch + ResourceMatch)) :=
  disasterType <- resolveDisasterType E (sos_disasterId sosData) ;;
  skillMatches <- findSkillMatches E cfg disasterType
                    (orEmpty (sos_requiredSkills sosData))
                    (sos_location sosData) (sos_urgency sosData) ;;
  resourceMatches <- findResourceMatches E cfg disasterType
                       (orEmpty (sos_requiredResources sosData))
                       (sos_location sosData) (sos_urgency sosData) ;;
  ret (toPersist skillMatches resourceMatches).

(** The steps of the pipeline that follow persistence: the best-effort
    status report, then one [match.created] message per saved match. *)
Definition reportAndNotify (E : Env) (requestId : string)
    (savedMatches : list SavedMatch) : M (list SavedMatch) :=
  tryCatch (axios_put_status E requestId "matched") (fun _ => ret tt) ;;;
  forOf savedMatches (notify requestId) tt ;;;
  ret savedMatches.

(** As [medicEnv], but the store refuses the statement issued at clock
    reading 9 (the second insert of the run below). *)
Definition flakyEnv : Env :=
  mkEnv (disasterService medicEnv) (skillService medicEnv)
        (resourceService medicEnv) (sosService medicEnv)
        (fun t => negb (t =? 9)%nat) (uuidv4 medicEnv)
        (calculateDistance medicEnv).

Definition floodRequest : SOSData :=
  mkSOSData "req1" "d1" "high" None (Some ["boat"]) (mkLocation 0 0).

(** The run of [floodRequest] against [flakyEnv], cut at the failing insert:
    the world and records after matching, the record persisted before the
    failure, the record whose insert is refused, and the one never reached. *)
Definition floodRecords : list (SkillMatch + ResourceMatch) :=
  match fst (matchingPhase flakyEnv defaultConfig floodRequest emptyWorld) with
  | Normal records => records
  | Throw _ => []
  end.

Definition floodMatched : World :=
  snd (matchingPhase flakyEnv defaultConfig floodRequest emptyWorld).

Definition floodFirst : list (SkillMatch + ResourceMatch) := firstn 1 floodRecords.

Definition floodSecond : SkillMatch + ResourceMatch :=
  nth 1 floodRecords (inr boatMatch).

Definition floodRest : list (SkillMatch + ResourceMatch) := skipn 2 floodRecords.

Definition floodSaved : list SavedMatch :=
  match fst (forOf floodFirst (persistOne flakyEnv "req1") [] floodMatched) with
  | Normal saved => saved
  | Throw _ => []
  end.

Definition floodOnePersisted : World :=
  snd (forOf floodFirst (persistOne flakyEnv "req1") [] floodMatched).

Definition floodAborted : World :=
  snd (persistOne flakyEnv "req1" floodSaved floodSecond floodOnePersisted).

(** A table holding one pending match [m1] of volunteer [v1]. *)
Definition pendingRow : MatchRow :=
  mkMatchRow "m1" "req1" "v1" (Some "s1") None (Some "medic") None
             7 (Some 3) (Some 8) "pending" 0 None None None 0.

Definition pendingWorld : World := mkWorld [pendingRow] [] [] 1.

(** The same table after [v1] has accepted [m1]. *)
Definition acceptedWorld : World :=
  snd (acceptRoute quietEnv "m1" "v1" pendingWorld).

(** The table after an [UPDATE ... WHERE condition] issued at time [now]. *)
Definition updated (condition : MatchRow -> bool)
    (assign : nat -> MatchRow -> MatchRow) (now : nat) (rows : list MatchRow)
    : list MatchRow :=
  map (fun r => if condition r then assign now r else r) rows.

(** The messages one run publishes for its saved matches. *)
Definition createdEvents (requestId : string) (savedMatches : list SavedMatch)
    : list (string * QueueMessage) :=
  map (fun s => (NOTIFICATION_QUEUE, createdEvent requestId s)) savedMatches.

Definition floodPersisted : World :=
  snd (forOf floodRecords (persistOne medicEnv "req1") [] floodMatched).

Definition floodAllSaved : list SavedMatch :=
  match fst (forOf floodRecords (persistOne medicEnv "req1") [] floodMatched) with
  | Normal saved => saved
  | Throw _ => []
  end.

(** Two records that differ in trust score only. *)
Definition withTrust (skill : Skill) (t : option Q) : Skill :=
  mkSkill (skill_userId skill) (skill_skillId skill) (skill_skillType skill)
          (skill_availability skill) (skill_verified skill) t
          (skill_certificationLevel skill) (skill_location skill).

Definition withCertification (skill : Skill) (level : string) : Skill :=
  mkSkill (skill_userId skill) (skill_skillId skill) (skill_skillType skill)
          (skill_availability skill) (skill_verified skill)
          (skill_trustScore skill) level (skill_location skill).




Definition isSome {A : Type} (o : option A) : bool :=
  match o with Some _ => true | None => false end.

(** A row as [saveMatch] writes it: the skill columns and the trust score
    are set, the resource columns are null. *)
Definition skillColumns (r : MatchRow) : bool :=
  isSome (skill_id r) && isSome (skill_type r) && isSome (trust_score r)
  && negb (isSome (resource_id r)) && negb (isSome (resource_type r)).

(** A row as [saveResourceMatch] writes it: the resource columns are set,
    the skill columns and the trust score are null. *)
Definition resourceColumns (r : MatchRow) : bool :=
  isSome (resource_id r) && isSome (resource_type r)
  && negb (isSome (skill_id r)) && negb (isSome (skill_type r))
  && negb (isSome (trust_score r)).

(** A row as one run of the pipeline for request [requestId] leaves it. *)
Definition freshRow (cfg : Config) (requestId : string) (r : MatchRow) : Prop :=
  request_id r = requestId
  /\ status r = "pending"
  /\ accepted_at r = None /\ rejected_at r = None /\ rejection_reason r = None
  /\ updated_at r = created_at r
  /\ ((skillColumns r = true
       /\ MATCH_SCORE_THRESHOLD cfg <= match_score r /\ match_score r <= 10)
      \/ (resourceColumns r = true /\ match_score r = 8.0)).

(** A record the matchers may hand to persistence. *)
Definition scoredInRange (cfg : Config) (x : SkillMatch + ResourceMatch) : Prop :=
  match x with
  | inl m => MATCH_SCORE_THRESHOLD cfg <= sm_matchScore m /\ sm_matchScore m <= 10
  | inr _ => True
  end.

Definition matchIds (w : World) : list string :=
  map match_id (matches_table w).

(** The columns no lifecycle transition writes. *)
Definition sameMatch (r r' : MatchRow) : Prop :=
  match_id r' = match_id r /\ request_id r' = request_id r
  /\ volunteer_id r' = volunteer_id r
  /\ skill_id r' = skill_id r /\ resource_id r' = resource_id r
  /\ skill_type r' = skill_type r /\ resource_type r' = resource_type r
  /\ match_score r' = match_score r /\ distance r' = distance r
  /\ trust_score r' = trust_score r /\ created_at r' = created_at r.

(** How a route may leave a row: the match it describes is the same, and a
    row the caller does not own is not touched at all. *)
Definition transitioned (matchId volunteerId : string) (r r' : MatchRow) : Prop :=
  sameMatch r r' /\ (ownedBy matchId volunteerId r = false -> r' = r).

(** The [match.accepted] messages one accept publishes for the rows its
    update returned. *)
Definition acceptedEvents (matchId volunteerId : string)
    (returned : list MatchRow) : list (string * QueueMessage) :=
  match returned with
  | [] => []
  | m :: _ => [(SOS_QUEUE, match_accepted matchId (request_id m) volunteerId)]
  end.

(* ------------------------------------------------------------------ *)
(** ** The read routes of [routes/matching.js] and [formatDuration] *)

(** [Math.trunc], the rounding [%] uses for its quotient. *)
Definition Qtrunc (q : Q) : Z :=
  if Qle_bool 0 q then Qfloor q else Qceiling q.

(** [x % y] on numbers: the remainder has the sign of the dividend. *)
Definition js_rem (x y : Q) : Q := x - y * inject_Z (Qtrunc (x / y)).

(** [String(n)] for an integer-valued number (plain decimal digits, as
    JavaScript prints every integer below 10^21). *)
Definition String_of (n : Z) : string := NilZero.string_of_int (Z.to_int n).

(** [s.padStart(2, '0')] *)
Definition padStart2 (s : string) : string :=
  match String.length s with
  | 0%nat => "00"
  | 1%nat => "0" ++ s
  | _ => s
  end%string.

(** The three numbers [formatDuration] prints. *)
Definition durationFields (seconds : Q) : Z * Z * Z :=
  let hours := Qfloor (seconds / 3600) in
  let minutes := Qfloor (js_rem seconds 3600 / 60) in
  let secs := Qfloor (js_rem seconds 60) in
  (hours, minutes, secs).

Definition formatDuration (seconds : Q) : string :=
  let '(hours, minutes, secs) := durationFields seconds in
  (padStart2 (String_of hours) ++ ":" ++ padStart2 (String_of minutes)
   ++ ":" ++ padStart2 (String_of secs))%string.

(** Two decimal digits. *)
Definition digitChar (d : Z) : ascii :=
  ascii_of_nat (48 + Z.to_nat d).

Definition twoDigits (n : Z) : string :=
  String (digitChar (n / 10)) (String (digitChar (n mod 10)) "").

(** What a route handler does with the request, for the routes below: send
    a status code with a JSON body, or hand an error to [next]. *)
Inductive Reply (B : Type) :=
  | Send (code : nat) (body : B)
  | PassToNext (error : string).
Arguments Send {B} code body.
Arguments PassToNext {B} error.

(** A [SELECT] on [matches]: [read] is what the statement computes from the
    rows. *)
Definition pool_select {A : Type} (E : Env) (read : list MatchRow -> A) : M A :=
  t <- tick ;;
  fun w =>
    if storeAvailable E t
    then (Normal (read (matches_table w)), w)
    else (Throw "DatabaseError", w).

(** One element of the [matches] array answered by [GET /matches].
    [distance] is [parseFloat(row.distance)] ([None] stands for the [NaN] of
    a null column); [trustScore] is null for a null column (the driver hands
    numerics over as non-empty strings, so every stored value is truthy). *)
Record MatchView := mkMatchView {
  view_matchId : string;
  view_requestId : string;
  view_volunteerId : string;
  view_skillId : option string;
  view_resourceId : option string;
  view_skillType : option string;
  view_resourceType : option string;
  view_matchScore : Q;
  view_distance : option Q;
  view_trustScore : option Q;
  view_status : string;
  view_createdAt : nat;
  view_acceptedAt : option nat;
  view_rejectedAt : option nat
}.

Definition viewOfRow (row : MatchRow) : MatchView :=
  mkMatchView (match_id row) (request_id row) (volunteer_id row)
              (skill_id row) (resource_id row)
              (skill_type row) (resource_type row)
              (match_score row) (distance row) (trust_score row)
              (status row) (created_at row) (accepted_at row)
              (rejected_at row).

Definition byMatchScoreDesc (a b : MatchRow) : Q := match_score b - match_score a.

(** [SELECT * FROM matches WHERE request_id = $1 ORDER BY match_score DESC].
    SQL leaves the order of rows with equal scores open; the model keeps
    them in table order. *)
Definition selectByRequest (requestId : string) (rows : list MatchRow)
    : list MatchRow :=
  sort byMatchScoreDesc
       (filter (fun r => (request_id r =? requestId)%string) rows).

Inductive ListBody :=
  | MissingParameterBody   (* { error: { code: 'MISSING_PARAMETER', ... } } *)
  | MatchesBody (matches : list MatchView).

(** [GET /matches]; [requestId] is [req.query.requestId], absent or a
    string. *)
Definition listRoute (E : Env) (requestId : option string)
    : M (Reply ListBody) :=
  tryCatch
    (match requestId with
     | None => ret (Send 400 MissingParameterBody)
     | Some rid =>
         if (rid =? "")%string then ret (Send 400 MissingParameterBody)
         else
           rows <- pool_select E (selectByRequest rid) ;;
           ret (Send 200 (MatchesBody (map viewOfRow rows)))
     end)
    (fun error => ret (PassToNext error)).

Record StatsBody := mkStatsBody {
  totalMatches : nat;
  acceptedMatches : nat;
  rejectedMatches : nat;
  pendingMatches : nat;
  averageMatchTime : string
}.

(** [SELECT COUNT( * ) FROM matches WHERE status = ...] *)
Definition countStatus (s : string) (rows : list MatchRow) : nat :=
  length (filter (fun r => (status r =? s)%string) rows).

(** [EXTRACT(EPOCH FROM (accepted_at - created_at))] of a row whose
    [accepted_at] is set. *)
Definition matchTime (r : MatchRow) : Q :=
  match accepted_at r with
  | Some a => inject_Z (Z.of_nat a - Z.of_nat (created_at r))
  | None => 0
  end.

Definition Qsum (l : list Q) : Q := fold_right Qplus 0 l.

(** [SELECT AVG(...) FROM matches WHERE accepted_at IS NOT NULL]: null when
    no row qualifies. *)
Definition avgSeconds (rows : list MatchRow) : option Q :=
  match filter (fun r => isSome (accepted_at r)) rows with
  | [] => None
  | r :: rs =>
      Some (Qsum (map matchTime (r :: rs))
            / inject_Z (Z.of_nat (length (r :: rs))))
  end.

(** [avg_seconds ? formatDuration(avg_seconds) : '00:00:00'] *)
Definition averageTimeText (avg : option Q) : string :=
  match avg with
  | Some q => if Qeq_bool q 0 then "00:00:00" else formatDuration q
  | None => "00:00:00"
  end.

(** [GET /stats]: five statements, one after the other. *)
Definition statsRoute (E : Env) : M (Reply StatsBody) :=
  tryCatch
    (total <- pool_select E (@length MatchRow) ;;
     accepted <- pool_select E (countStatus "accepted") ;;
     rejected <- pool_select E (countStatus "rejected") ;;
     pending <- pool_select E (countStatus "pending") ;;
     avg <- pool_select E avgSeconds ;;
     ret (Send 200 (mkStatsBody total accepted rejected pending
                                (averageTimeText avg))))
    (fun error => ret (PassToNext error)).

(** The three values the service ever writes into [status]. *)
Definition knownStatus (r : MatchRow) : Prop :=
  status r = "pending" \/ status r = "accepted" \/ status r = "rejected".

Definition viewScoreDescending (a b : MatchView) : Prop :=
  view_matchScore b <= view_matchScore a.

Definition rowScoreDescending (a b : MatchRow) : Prop :=
  match_score b <= match_score a.

(** The rows of one request, as [GET /matches] shows them. *)
Definition viewsOfRequest (requestId : string) (rows : list MatchRow)
    : list MatchView :=
  map viewOfRow (filter (fun r => (request_id r =? requestId)%string) rows).

(* ------------------------------------------------------------------ *)
(** ** The manual endpoint and the queue consumer *)

(** The body of [POST /match] as the validation schema admits it. *)
Record MatchRequestBody := mkMatchRequestBody {
  body_requestId : string;
  body_disasterId : string;
  body_disasterType : option string;
  body_requiredSkills : option (list string);
  body_requiredResources : option (list string);
  body_location : Location;
  body_urgency : string;
  body_radius : option Q
}.

Definition matchRequest (E : Env) (cfg : Config)
    (requestData : MatchRequestBody) : M (list SavedMatch) :=
  processSOSRequest E cfg
    (mkSOSData (body_requestId requestData) (body_disasterId requestData)
               (body_urgency requestData) (body_requiredSkills requestData)
               (body_requiredResources requestData)
               (body_location requestData)).

(** [m.skillType] and [m.resourceType] as conditions: absent and empty are
    both falsy. *)
Definition hasSkillType (s : SavedMatch) : bool :=
  match s with
  | SavedSkill m _ => negb (sm_skillType m =? "")%string
  | SavedResource _ _ => false
  end.

Definition hasResourceType (s : SavedMatch) : bool :=
  match s with
  | SavedSkill _ _ => false
  | SavedResource m _ => negb (rm_resourceType m =? "")%string
  end.

Record MatchResponse := mkMatchResponse {
  resp_requestId : string;
  resp_matches : list SavedMatch;
  resp_resourceMatches : list SavedMatch;
  resp_matchedAt : nat
}.

(** The handler of [POST /match], run once [validateMatchRequest] has let
    the body through.  [matchedAt] is the time of the answer. *)
Definition matchRoute (E : Env) (cfg : Config) (body : MatchRequestBody)
    : M (Reply MatchResponse) :=
  tryCatch
    (matches <- matchRequest E cfg body ;;
     fun w =>
       (Normal (Send 200 (mkMatchResponse (body_requestId body)
                            (filter hasSkillType matches)
                            (filter hasResourceType matches)
                            (clock w))), w))
    (fun error => ret (PassToNext error)).

(** A message taken from the SOS queue: its content does not parse as JSON
    (or parses to [null]), or it parses to an object with an [event] and
    possibly a [data] field. *)
Inductive Delivery :=
  | Unparseable
  | Parsed (event : string) (data : option SOSData).

(** The callback [startServer] hands to [consumeFromQueue]. *)
Definition consumeSOS (E : Env) (cfg : Config) (message : Delivery) : M unit :=
  tryCatch
    (match message with
     | Unparseable => throw "SyntaxError"
     | Parsed event data =>
         if (event =? "sos.request.created")%string
         then match data with
              | Some sosData => processSOSRequest E cfg sosData ;;; ret tt
              | None => throw "TypeError"
              end
         else ret tt
     end)
    (fun _ => ret tt).

(** The record a saved match was built from. *)
Definition recordOf (s : SavedMatch) : SkillMatch + ResourceMatch :=
  match s with
  | SavedSkill m _ => inl m
  | SavedResource m _ => inr m
  end.

(** The volunteer a saved match is stored for, and the score it is stored
    with. *)
Definition savedVolunteer (s : SavedMatch) : string :=
  match s with
  | SavedSkill m _ => sm_volunteerId m
  | SavedResource m _ => rm_ownerId m
  end.

Definition savedScore (s : SavedMatch) : Q :=
  match s with
  | SavedSkill m _ => sm_matchScore m
  | SavedResource _ _ => 8.0
  end.

(** The row that stands for a saved match of request [requestId]. *)
Definition rowOfSaved (requestId : string) (s : SavedMatch) (r : MatchRow)
    : Prop :=
  match_id r = saved_matchId s
  /\ request_id r = requestId
  /\ volunteer_id r = savedVolunteer s
  /\ match_score r = savedScore s
  /\ status r = "pending".

(** A record whose type tag is not the empty string. *)
Definition typed (x : SkillMatch + ResourceMatch) : Prop :=
  match x with
  | inl m => sm_skillType m <> ""
  | inr m => rm_resourceType m <> ""
  end.

(** The disaster type a run started in world [w] works with. *)
Definition resolvedType (E : Env) (w : World) : string :=
  match disasterService E (clock w) with
  | Some disasterType => disasterType
  | None => "flood"
  end.

(** A registry call made for the given disaster type and radius. *)
Definition callUses (disasterType : string) (radius : Q) (c : HttpCall) : Prop :=
  match c with
  | GET_skills d _ r => d = disasterType /\ r = radius
  | GET_resources d _ r => d = disasterType /\ r = radius
  | GET_disaster _ => True
  | PUT_status _ _ => True
  end.

Definition manualRequest : MatchRequestBody :=
  mkMatchRequestBody "req1" "d1" (Some "fire") None (Some ["boat"])
                     (mkLocation 0 0) "high" (Some 5).

(** A body that differs in [disasterType] and [radius] only. *)
Definition withTypeAndRadius (body : MatchRequestBody)
    (disasterType : option string) (radius : option Q) : MatchRequestBody :=
  mkMatchRequestBody (body_requestId body) (body_disasterId body) disasterType
                     (body_requiredSkills body) (body_requiredResources body)
                     (body_location body) (body_urgency body) radius.

Definition isSavedSkill (s : SavedMatch) : Prop :=
  match s with SavedSkill _ _ => True | SavedResource _ _ => False end.

Definition isSavedResource (s : SavedMatch) : Prop :=
  match s with SavedSkill _ _ => False | SavedResource _ _ => True end.

(* ------------------------------------------------------------------ *)
(** ** The scoring function over binary64 *)

From Stdlib Require Import Floats.

Module Binary64.
#[local] Set Warnings "-inexact-float".
Local Open Scope float_scope.

(** [x || d] on a possibly absent number: [undefined], [0], [-0] and [NaN]
    are falsy. *)
Definition orDefault (x : option float) (d : float) : float :=
  match x with
  | Some v => if is_nan v || is_zero v then d else v
  | None => d
  end.

(** [Math.max] and [Math.min] on two numbers: [NaN] is contagious, and
    [+0] is larger than [-0]. *)
Definition Math_max (a b : float) : float :=
  if is_nan a || is_nan b then nan
  else if a <? b then b
  else if b <? a then a
  else if get_sign a then b else a.

Definition Math_min (a b : float) : float :=
  if is_nan a || is_nan b then nan
  else if a <? b then a
  else if b <? a then b
  else if get_sign a then a else b.

Definition calculateMatchScore (maxDistance : float)
    (trustScore : option float) (certificationLevel : string)
    (distance : float) (urgency : string) : float :=
  let score := 0 in
  let score := score + orDefault trustScore 5.0 * 0.4 in
  let distanceScore := Math_max 0 (10 - (distance / maxDistance) * 10) in
  let score := score + distanceScore * 0.3 in
  let urgencyMultiplier :=
    if (urgency =? "critical")%string then 1.2
    else if (urgency =? "high")%string then 1.1
    else 1.0 in
  let score := score * urgencyMultiplier in
  let score :=
    if (certificationLevel =? "expert")%string then score + 1.0
    else if (certificationLevel =? "intermediate")%string then score + 0.5
    else score in
  Math_min 10 score.

Definition six_point_six : float := 6.6.
Definition five : float := 5.
End Binary64.

(* ------------------------------------------------------------------ *)
(** ** Proof automation *)

(** Expose one layer of the effect monad: the combinators and the primitive
    effects are unfolded and the projections of the rebuilt world reduced. *)
Ltac step_effects :=
  unfold pool_insert, pool_update, uuid, tryCatch, bind, tick, logHttp,
    publishToQueue, setTable, ret, throw;
  cbn [clock matches_table http_log queue match_id].

(* ================================================================== *)
(** * Properties *)

(* ------------------------------------------------------------------ *)
(** ** Facts about scoring *)

Lemma orDefault_nonneg (t : option Q) :
  validTrust t -> 0 <= orDefault t 5.0.
Proof.
  destruct t as [q|]; simpl; intros H.
  - destruct (Qeq_bool q 0); [lra | tauto].
  - lra.
Qed.

Lemma orDefault_truthy (q : Q) :
  ~ q == 0 -> orDefault (Some q) 5.0 = q.
Proof.
  intros H. unfold orDefault.
  destruct (Qeq_bool q 0) eqn:E; [|reflexivity].
  apply Qeq_bool_iff in E. contradiction.
Qed.

Lemma urgencyMultiplier_pos (u : string) : 0 < urgencyMultiplier u.
Proof.
  unfold urgencyMultiplier.
  destruct (u =? "critical")%string; [lra|].
  destruct (u =? "high")%string; lra.
Qed.

Lemma Qmax0_nonneg (x : Q) : 0 <= Qmax 0 x.
Proof. apply Q.le_max_l. Qed.

Lemma distanceScore_antitone (r d1 d2 : Q) :
  0 < r -> d1 <= d2 ->
  Qmax 0 (10 - (d2 / r) * 10) <= Qmax 0 (10 - (d1 / r) * 10).
Proof.
  intros Hr Hd.
  apply Q.max_le_compat_l.
  assert (d1 / r <= d2 / r).
  { unfold Qdiv. apply Qmult_le_compat_r; [assumption|].
    apply Qlt_le_weak, Qinv_lt_0_compat, Hr. }
  lra.
Qed.

(** X1.  With a trust score that is absent or not zero, the code computes
    the documented formula. *)
Lemma calculateMatchScore_formula (cfg : Config) (skill : Skill)
    (d : Q) (u : string) :
  match skill_trustScore skill with Some q => ~ q == 0 | None => True end ->
  calculateMatchScore cfg skill d u
  == spec_score (skill_trustScore skill) d (MAX_MATCH_RADIUS cfg) u
       (skill_certificationLevel skill).
Proof.
  intros Ht.
  unfold calculateMatchScore, spec_score, spec_bonus.
  change (spec_multiplier u) with (urgencyMultiplier u).
  assert (Hd : orDefault (skill_trustScore skill) 5.0
               = spec_trust (skill_trustScore skill)).
  { destruct (skill_trustScore skill) as [q|]; [|reflexivity].
    simpl spec_trust. now apply orDefault_truthy. }
  rewrite Hd.
  destruct (skill_certificationLevel skill =? "expert")%string.
  - apply Q.min_compat; [reflexivity | ring].
  - destruct (skill_certificationLevel skill =? "intermediate")%string;
      apply Q.min_compat; try reflexivity; ring.
Qed.

(** The worked instance of the specification: trustScore 8, distance 10,
    maxRadius 50, urgency medium, certification expert scores 6.6, both over
    the rationals and in binary64 arithmetic. *)
Lemma calculateMatchScore_worked_instance :
  calculateMatchScore defaultConfig workedSkill 10 "medium" == 6.6
  /\ Binary64.calculateMatchScore 50 (Some 8%float) "expert" 10 "medium"
     = Binary64.six_point_six.
Proof. split; vm_compute; reflexivity. Qed.

(** C2.  For a candidate whose trust score is 0 (a value of the documented
    range [0,10]) the code does not return the documented formula: [0 || 5.0]
    selects the default, so at distance 0, urgency medium, no certification
    and radius 50 the code scores 5 where the formula gives 3.  The same
    holds in binary64 arithmetic. *)
Theorem calculateMatchScore_zero_trust :
  calculateMatchScore defaultConfig zeroTrustSkill 0 "medium" == 5
  /\ spec_score (Some 0) 0 50 "medium" "none" == 3
  /\ Binary64.calculateMatchScore 50 (Some 0%float) "none" 0 "medium"
     = Binary64.five.
Proof. repeat split; vm_compute; reflexivity. Qed.

Lemma calculateMatchScore_le_10 (cfg : Config) (skill : Skill) (d : Q)
    (u : string) :
  calculateMatchScore cfg skill d u <= 10.
Proof. unfold calculateMatchScore. apply Q.le_min_l. Qed.

(** C3.  For a positive search radius and a trust score that is absent or in
    [0,10], the score lies in [0,10], whatever the distance, the urgency and
    the certification level. *)
Theorem calculateMatchScore_range (cfg : Config) (skill : Skill) (d : Q)
    (u : string) :
  0 < MAX_MATCH_RADIUS cfg ->
  validTrust (skill_trustScore skill) ->
  0 <= d ->
  0 <= calculateMatchScore cfg skill d u
  /\ calculateMatchScore cfg skill d u <= 10.
Proof.
  intros _ Ht _. split; [|apply calculateMatchScore_le_10].
  unfold calculateMatchScore.
  pose proof (orDefault_nonneg _ Ht) as H1.
  pose proof (Qmax0_nonneg (10 - d / MAX_MATCH_RADIUS cfg * 10)) as H2.
  pose proof (urgencyMultiplier_pos u) as H3.
  set (t := orDefault (skill_trustScore skill) 5.0) in *.
  set (ds := Qmax 0 (10 - d / MAX_MATCH_RADIUS cfg * 10)) in *.
  set (m := urgencyMultiplier u) in *.
  assert (Hb : 0 <= (0 + t * 0.4 + ds * 0.3) * m).
  { apply Qmult_le_0_compat; [|lra].
    assert (0 <= t * 0.4) by (apply Qmult_le_0_compat; lra).
    assert (0 <= ds * 0.3) by (apply Qmult_le_0_compat; lra).
    lra. }
  apply Q.min_glb; [lra|].
  destruct (skill_certificationLevel skill =? "expert")%string; [lra|].
  destruct (skill_certificationLevel skill =? "intermediate")%string; lra.
Qed.

Lemma calculateMatchScore_range_witness :
  0 <= calculateMatchScore defaultConfig workedSkill 10 "critical"
  /\ calculateMatchScore defaultConfig workedSkill 10 "critical" <= 10.
Proof.
  apply (calculateMatchScore_range defaultConfig workedSkill 10 "critical").
  - reflexivity.
  - simpl. split; discriminate.
  - discriminate.
Defined.

(** C9.  With candidate, urgency and a positive radius fixed, a larger
    distance never scores higher. *)
Theorem calculateMatchScore_antitone_in_distance (cfg : Config) (skill : Skill)
    (u : string) (d1 d2 : Q) :
  0 < MAX_MATCH_RADIUS cfg ->
  0 <= d1 -> d1 <= d2 ->
  calculateMatchScore cfg skill d2 u <= calculateMatchScore cfg skill d1 u.
Proof.
  intros Hr _ Hd.
  unfold calculateMatchScore.
  pose proof (distanceScore_antitone _ _ _ Hr Hd) as Hs.
  pose proof (urgencyMultiplier_pos u) as Hm.
  set (t := orDefault (skill_trustScore skill) 5.0) in *.
  set (s1 := Qmax 0 (10 - d1 / MAX_MATCH_RADIUS cfg * 10)) in *.
  set (s2 := Qmax 0 (10 - d2 / MAX_MATCH_RADIUS cfg * 10)) in *.
  set (m := urgencyMultiplier u) in *.
  assert (Hb : (0 + t * 0.4 + s2 * 0.3) * m <= (0 + t * 0.4 + s1 * 0.3) * m).
  { apply Qmult_le_compat_r; lra. }
  apply Q.min_le_compat_l.
  destruct (skill_certificationLevel skill =? "expert")%string; [lra|].
  destruct (skill_certificationLevel skill =? "intermediate")%string; lra.
Qed.

Lemma calculateMatchScore_antitone_witness :
  calculateMatchScore defaultConfig workedSkill 30 "high"
  <= calculateMatchScore defaultConfig workedSkill 10 "high".
Proof.
  apply (calculateMatchScore_antitone_in_distance defaultConfig workedSkill
           "high" 10 30).
  - reflexivity.
  - discriminate.
  - discriminate.
Defined.

(* ------------------------------------------------------------------ *)
(** ** Disaster-skill mapping and the search set *)

Lemma assoc_outside_enumeration (dt : string) :
  ~ In dt disasterTypes -> assoc dt DISASTER_SKILL_MAP = None.
Proof.
  intros Hn. unfold DISASTER_SKILL_MAP. cbn [assoc].
  repeat match goal with
  | |- context [(?k =? dt)%string] =>
      destruct (String.eqb_spec k dt) as [Heq|_];
      [exfalso; apply Hn; subst dt; simpl; auto 10|]
  end.
  reflexivity.
Qed.

Lemma slice0_nil {A : Type} (n : Z) : slice0 (@nil A) n = [].
Proof. unfold slice0. destruct (n <? 0)%Z; apply firstn_nil. Qed.

Lemma searchedTags_outside_enumeration (dt : string) :
  ~ In dt disasterTypes -> searchedTags dt [] = [].
Proof.
  intros Hn. unfold searchedTags.
  change (skillsToFind dt []) with (relevantSkills dt).
  unfold relevantSkills.
  rewrite (assoc_outside_enumeration dt Hn).
  destruct (mem dt Object_prototype_keys); reflexivity.
Qed.

Lemma searchedTags_eq (dt : string) (req : list string) :
  searchedTags dt req
  = match req with
    | [] => orEmpty (assoc dt DISASTER_SKILL_MAP)
    | _ :: _ => req
    end.
Proof.
  destruct req as [|r req]; [|reflexivity].
  unfold searchedTags.
  change (skillsToFind dt []) with (relevantSkills dt).
  unfold relevantSkills.
  destruct (assoc dt DISASTER_SKILL_MAP); [reflexivity|].
  destruct (mem dt Object_prototype_keys); reflexivity.
Qed.

(** C10.  With no required resources, [findResourceMatches] answers the
    empty sequence and leaves the world as it was: no registry call is made,
    whatever the disaster type, location and urgency.  The orchestrator
    passes [requiredResources || []], so an absent list behaves the same. *)
Theorem findResourceMatches_no_required (E : Env) (cfg : Config)
    (dt : string) (loc : Location) (u : string) (w : World) :
  findResourceMatches E cfg dt [] loc u w = (Normal [], w)
  /\ findResourceMatches E cfg dt (orEmpty None) loc u w = (Normal [], w)
  /\ http_log (snd (findResourceMatches E cfg dt [] loc u w)) = http_log w.
Proof.
  assert (H : findResourceMatches E cfg dt [] loc u w = (Normal [], w)).
  { unfold findResourceMatches, tryCatch, bind, forOf, ret.
    cbn [sort fold_right]. now rewrite slice0_nil. }
  split; [exact H|]. split; [exact H|]. now rewrite H.
Qed.

(* ------------------------------------------------------------------ *)
(** ** [sort] and [slice] *)

Section SortFacts.
Context {A : Type}.
Variable compareFn : A -> A -> Q.
Variable precedes : A -> A -> Prop.
Hypothesis precedes_iff : forall a b, compareFn a b <= 0 <-> precedes a b.
Hypothesis precedes_total : forall a b, precedes a b \/ precedes b a.
Hypothesis precedes_trans : forall a b c,
  precedes a b -> precedes b c -> precedes a c.

Lemma insertSorted_perm (x : A) (l : list A) :
  Permutation (insertSorted compareFn x l) (x :: l).
Proof.
  induction l as [|y l IH]; simpl.
  - apply Permutation_refl.
  - destruct (Qle_bool (compareFn x y) 0).
    + apply Permutation_refl.
    + eapply perm_trans; [apply perm_skip, IH | apply perm_swap].
Qed.

Lemma sort_perm (l : list A) : Permutation (sort compareFn l) l.
Proof.
  induction l as [|x l IH]; simpl.
  - apply perm_nil.
  - eapply perm_trans; [apply insertSorted_perm | now apply perm_skip].
Qed.

Lemma insertSorted_hd (x a : A) (l : list A) :
  precedes a x -> HdRel precedes a l ->
  HdRel precedes a (insertSorted compareFn x l).
Proof.
  intros Hax Hl. destruct l as [|y l]; simpl.
  - now constructor.
  - destruct (Qle_bool (compareFn x y) 0); constructor; trivial.
    now inversion Hl.
Qed.

Lemma insertSorted_sorted (x : A) (l : list A) :
  Sorted precedes l -> Sorted precedes (insertSorted compareFn x l).
Proof.
  induction 1 as [|y l Hs IH Hhd]; simpl.
  - repeat constructor.
  - destruct (Qle_bool (compareFn x y) 0) eqn:E.
    + constructor; [now constructor|].
      constructor. apply precedes_iff. now apply Qle_bool_iff.
    + constructor; [exact IH|].
      apply insertSorted_hd; [|exact Hhd].
      destruct (precedes_total x y) as [Hxy|Hyx]; [|exact Hyx].
      apply precedes_iff, Qle_bool_iff in Hxy. congruence.
Qed.

Lemma sort_sorted (l : list A) : StronglySorted precedes (sort compareFn l).
Proof.
  apply Sorted_StronglySorted.
  - exact precedes_trans.
  - induction l as [|x l IH]; simpl.
    + constructor.
    + now apply insertSorted_sorted.
Qed.

Lemma sort_In (x : A) (l : list A) : In x (sort compareFn l) <-> In x l.
Proof.
  split; apply Permutation_in;
    [apply sort_perm | apply Permutation_sym, sort_perm].
Qed.

Lemma sort_length (l : list A) : length (sort compareFn l) = length l.
Proof. apply Permutation_length, sort_perm. Qed.
End SortFacts.

Lemma In_firstn {A : Type} (x : A) (n : nat) (l : list A) :
  In x (firstn n l) -> In x l.
Proof.
  revert n. induction l as [|y l IH]; intros [|n]; simpl; try tauto.
  intros [H|H]; [now left | right; eapply IH; exact H].
Qed.

Lemma StronglySorted_firstn {A : Type} (R : A -> A -> Prop) (n : nat)
    (l : list A) :
  StronglySorted R l -> StronglySorted R (firstn n l).
Proof.
  intros H. revert n.
  induction H as [|x l Hs IH Hall]; intros [|n]; simpl; try constructor.
  - apply IH.
  - rewrite Forall_forall in *. intros y Hy.
    apply Hall. eapply In_firstn; exact Hy.
Qed.

Lemma slice0_sorted {A : Type} (R : A -> A -> Prop) (l : list A) (n : Z) :
  StronglySorted R l -> StronglySorted R (slice0 l n).
Proof.
  intros H. unfold slice0.
  destruct (n <? 0)%Z; now apply StronglySorted_firstn.
Qed.

Lemma slice0_In {A : Type} (x : A) (l : list A) (n : Z) :
  In x (slice0 l n) -> In x l.
Proof.
  unfold slice0. destruct (n <? 0)%Z; apply In_firstn.
Qed.

Lemma slice0_length {A : Type} (l : list A) (n : Z) :
  (0 <= n)%Z -> (Z.of_nat (length (slice0 l n)) <= n)%Z.
Proof.
  intros Hn. unfold slice0.
  destruct (Z.ltb_spec n 0); [lia|].
  pose proof (firstn_le_length (Z.to_nat n) l). lia.
Qed.

Lemma slice0_all {A : Type} (l : list A) (n : Z) :
  (Z.of_nat (length l) <= n)%Z -> slice0 l n = l.
Proof.
  intros Hn. unfold slice0.
  destruct (Z.ltb_spec n 0); [lia|].
  apply firstn_all2. lia.
Qed.

Lemma slice0_nonempty {A : Type} (l : list A) (n : Z) :
  (1 <= n)%Z -> l <> [] -> slice0 l n <> [].
Proof.
  intros Hn Hl. unfold slice0.
  destruct (Z.ltb_spec n 0); [lia|].
  destruct l as [|x l]; [congruence|].
  destruct (Z.to_nat n) as [|k] eqn:E; [lia|]. discriminate.
Qed.

Lemma byScoreDesc_iff (a b : SkillMatch) :
  byScoreDesc a b <= 0 <-> scoreDescending a b.
Proof. unfold byScoreDesc, scoreDescending. split; intros; lra. Qed.

Lemma scoreDescending_total (a b : SkillMatch) :
  scoreDescending a b \/ scoreDescending b a.
Proof.
  unfold scoreDescending.
  destruct (Qlt_le_dec (sm_matchScore a) (sm_matchScore b)); [right|left]; lra.
Qed.

Lemma scoreDescending_trans (a b c : SkillMatch) :
  scoreDescending a b -> scoreDescending b c -> scoreDescending a c.
Proof. unfold scoreDescending. intros. lra. Qed.

Lemma byDistanceAsc_iff (a b : ResourceMatch) :
  byDistanceAsc a b <= 0 <-> distanceAscending a b.
Proof. unfold byDistanceAsc, distanceAscending. split; intros; lra. Qed.

Lemma distanceAscending_total (a b : ResourceMatch) :
  distanceAscending a b \/ distanceAscending b a.
Proof.
  unfold distanceAscending.
  destruct (Qlt_le_dec (rm_distance a) (rm_distance b)); [left|right]; lra.
Qed.

Lemma distanceAscending_trans (a b c : ResourceMatch) :
  distanceAscending a b -> distanceAscending b c -> distanceAscending a c.
Proof. unfold distanceAscending. intros. lra. Qed.

(* ------------------------------------------------------------------ *)
(** ** Running the matchers *)

Lemma filter_filter {A : Type} (f g : A -> bool) (l : list A) :
  filter f (filter g l) = filter (fun x => g x && f x) l.
Proof.
  induction l as [|x l IH]; simpl; [reflexivity|].
  destruct (g x); simpl; [destruct (f x)|]; now rewrite IH.
Qed.

Lemma afterCalls_nil (w : World) : afterCalls w [] = w.
Proof. destruct w. unfold afterCalls. simpl. now rewrite app_nil_r. Qed.

Lemma afterCalls_app (w : World) (c1 c2 : list HttpCall) :
  afterCalls (afterCalls w c1) c2 = afterCalls w (c1 ++ c2).
Proof.
  unfold afterCalls. simpl. rewrite app_assoc, length_app.
  f_equal. lia.
Qed.

Lemma fold_left_scoreSkill (E : Env) (cfg : Config) (loc : Location)
    (u : string) (l : list Skill) (acc : list SkillMatch) :
  fold_left (scoreSkill E cfg loc u) l acc
  = acc ++ map (matchOfSkill E cfg loc u)
             (filter (fun s => Qle_bool (MATCH_SCORE_THRESHOLD cfg)
                         (calculateMatchScore cfg s (skillDistance E loc s) u))
                     l).
Proof.
  revert acc. induction l as [|s l IH]; intros acc; simpl.
  - now rewrite app_nil_r.
  - rewrite IH. unfold scoreSkill at 1.
    destruct (Qle_bool _ _); simpl; [|reflexivity].
    now rewrite <- app_assoc.
Qed.

Lemma skillTagStep_run (E : Env) (cfg : Config) (dt : string) (loc : Location)
    (u : string) (acc : list SkillMatch) (tag : string) (w : World) :
  skillTagStep E cfg dt loc u acc tag w
  = (Normal (acc ++ map (matchOfSkill E cfg loc u)
                      (filter (qualifies E cfg loc u tag)
                              (candidatesOf (skillService E (clock w))))),
     afterCalls w [GET_skills dt loc (MAX_MATCH_RADIUS cfg)]).
Proof.
  unfold skillTagStep, axios_get_skills, afterCalls. step_effects.
  cbn [length Nat.add].
  destruct (skillService E (clock w)) as [data|]; cbn [candidatesOf].
  - rewrite fold_left_scoreSkill, filter_filter. reflexivity.
  - cbn [filter map]. now rewrite app_nil_r.
Qed.

Lemma forOf_skillTagStep (E : Env) (cfg : Config) (dt : string)
    (loc : Location) (u : string) (tags : list string) :
  forall (acc : list SkillMatch) (w : World),
    forOf tags (skillTagStep E cfg dt loc u) acc w
    = (Normal (acc ++ collectSkills E cfg loc u tags (clock w)),
       afterCalls w (repeat (GET_skills dt loc (MAX_MATCH_RADIUS cfg))
                            (length tags))).
Proof.
  induction tags as [|tag tags IH]; intros acc w.
  - cbn [forOf collectSkills length repeat]. unfold ret.
    now rewrite app_nil_r, afterCalls_nil.
  - cbn [forOf]. unfold bind at 1. rewrite skillTagStep_run, IH.
    rewrite afterCalls_app. cbn [collectSkills length repeat app].
    rewrite <- app_assoc. reflexivity.
Qed.

(** What [findSkillMatches] computes: it always completes normally, with
    the first [MAX_MATCHES_PER_REQUEST] of the collected matches sorted by
    descending score, after one registry call per searched tag. *)
Lemma findSkillMatches_run (E : Env) (cfg : Config) (dt : string)
    (req : list string) (loc : Location) (u : string) (w : World) :
  findSkillMatches E cfg dt req loc u w
  = (Normal (slice0 (sort byScoreDesc
                       (collectSkills E cfg loc u (searchedTags dt req) (clock w)))
                    (MAX_MATCHES_PER_REQUEST cfg)),
     afterCalls w (repeat (GET_skills dt loc (MAX_MATCH_RADIUS cfg))
                          (length (searchedTags dt req)))).
Proof.
  unfold findSkillMatches, searchedTags, tryCatch.
  destruct (skillsToFind dt req) as [tags|].
  - unfold bind. rewrite forOf_skillTagStep. reflexivity.
  - cbn [collectSkills length repeat sort fold_right throw ret].
    unfold throw, ret. now rewrite slice0_nil, afterCalls_nil.
Qed.

Lemma fold_left_pushResource (E : Env) (loc : Location) (l : list Resource)
    (acc : list ResourceMatch) :
  fold_left (pushResource E loc) l acc = acc ++ map (matchOfResource E loc) l.
Proof.
  revert acc. induction l as [|r l IH]; intros acc; simpl.
  - now rewrite app_nil_r.
  - rewrite IH. unfold pushResource at 1. now rewrite <- app_assoc.
Qed.

Lemma resourceTypeStep_run (E : Env) (cfg : Config) (dt : string)
    (loc : Location) (acc : list ResourceMatch) (ty : string) (w : World) :
  resourceTypeStep E cfg dt loc acc ty w
  = (Normal (acc ++ map (matchOfResource E loc)
                      (filter (resourceFilter ty)
                              (candidatesOf (resourceService E (clock w))))),
     afterCalls w [GET_resources dt loc (MAX_MATCH_RADIUS cfg)]).
Proof.
  unfold resourceTypeStep, axios_get_resources, afterCalls. step_effects.
  cbn [length Nat.add].
  destruct (resourceService E (clock w)) as [data|]; cbn [candidatesOf].
  - now rewrite fold_left_pushResource.
  - cbn [filter map]. now rewrite app_nil_r.
Qed.

Lemma forOf_resourceTypeStep (E : Env) (cfg : Config) (dt : string)
    (loc : Location) (types : list string) :
  forall (acc : list ResourceMatch) (w : World),
    forOf types (resourceTypeStep E cfg dt loc) acc w
    = (Normal (acc ++ collectResources E loc types (clock w)),
       afterCalls w (repeat (GET_resources dt loc (MAX_MATCH_RADIUS cfg))
                            (length types))).
Proof.
  induction types as [|ty types IH]; intros acc w.
  - cbn [forOf collectResources length repeat]. unfold ret.
    now rewrite app_nil_r, afterCalls_nil.
  - cbn [forOf]. unfold bind at 1. rewrite resourceTypeStep_run, IH.
    rewrite afterCalls_app. cbn [collectResources length repeat app].
    rewrite <- app_assoc. reflexivity.
Qed.

Lemma findResourceMatches_run (E : Env) (cfg : Config) (dt : string)
    (req : list string) (loc : Location) (u : string) (w : World) :
  findResourceMatches E cfg dt req loc u w
  = (Normal (slice0 (sort byDistanceAsc
                       (collectResources E loc req (clock w)))
                    (MAX_MATCHES_PER_REQUEST cfg)),
     afterCalls w (repeat (GET_resources dt loc (MAX_MATCH_RADIUS cfg))
                          (length req))).
Proof.
  unfold findResourceMatches, tryCatch, bind.
  rewrite forOf_resourceTypeStep. reflexivity.
Qed.

(** C6.  The tags [findSkillMatches] searches, one registry call each, are
    the explicit [requiredSkills] when that list is non-empty and the entry
    of the disaster-type mapping otherwise; for ["fire"] the entry is
    firefighter, electrician, medic, smoke_diver; for a disaster type outside
    the six-value enumeration and no required skills, no tag is searched and
    the result is the empty sequence (no call is made). *)
Theorem skillsToFind_spec (E : Env) (cfg : Config) (dt : string)
    (req : list string) (loc : Location) (u : string) (w : World) :
  searchedTags dt req
    = match req with
      | [] => orEmpty (assoc dt DISASTER_SKILL_MAP)
      | _ :: _ => req
      end
  /\ snd (findSkillMatches E cfg dt req loc u w)
     = afterCalls w (repeat (GET_skills dt loc (MAX_MATCH_RADIUS cfg))
                            (length (searchedTags dt req)))
  /\ searchedTags "fire" []
     = ["firefighter"; "electrician"; "medic"; "smoke_diver"]
  /\ (~ In dt disasterTypes ->
      searchedTags dt [] = []
      /\ findSkillMatches E cfg dt [] loc u w = (Normal [], w)).
Proof.
  split; [apply searchedTags_eq|].
  split; [now rewrite findSkillMatches_run|].
  split; [reflexivity|].
  intros Hn.
  pose proof (searchedTags_outside_enumeration dt Hn) as Hs.
  split; [exact Hs|].
  rewrite findSkillMatches_run, Hs.
  cbn [collectSkills sort fold_right length repeat].
  now rewrite slice0_nil, afterCalls_nil.
Qed.

Lemma skillsToFind_spec_witness :
  searchedTags "volcano" [] = []
  /\ findSkillMatches quietEnv defaultConfig "volcano" [] (mkLocation 0 0)
       "high" emptyWorld = (Normal [], emptyWorld).
Proof.
  apply (skillsToFind_spec quietEnv defaultConfig "volcano" []
           (mkLocation 0 0) "high" emptyWorld).
  simpl. intros H; repeat destruct H as [H|H]; try discriminate H; exact H.
Defined.

(* ------------------------------------------------------------------ *)
(** ** Where the matches come from *)

Lemma qualifies_true (E : Env) (cfg : Config) (loc : Location)
    (u tag : string) (s : Skill) :
  qualifies E cfg loc u tag s = true ->
  skill_skillType s = tag
  /\ skill_availability s = "available"
  /\ skill_verified s = true
  /\ MATCH_SCORE_THRESHOLD cfg
     <= calculateMatchScore cfg s (skillDistance E loc s) u.
Proof.
  unfold qualifies, skillFilter. intros H.
  apply andb_prop in H as [H Hs].
  apply andb_prop in H as [H Hv].
  apply andb_prop in H as [Ht Ha].
  apply String.eqb_eq in Ht, Ha. apply Qle_bool_iff in Hs. auto.
Qed.

Lemma collectSkills_provenance (E : Env) (cfg : Config) (loc : Location)
    (u : string) (tags : list string) :
  forall (t0 : nat) (m : SkillMatch),
    In m (collectSkills E cfg loc u tags t0) ->
    skillProvenance E cfg loc u tags t0 m.
Proof.
  induction tags as [|tag tags IH]; intros t0 m Hin; [contradiction|].
  cbn [collectSkills] in Hin. apply in_app_or in Hin as [Hin|Hin].
  - apply in_map_iff in Hin as (s & <- & Hs).
    apply filter_In in Hs as [Hpool Hq].
    apply qualifies_true in Hq as (H1 & H2 & H3 & H4).
    exists 0%nat, tag, (candidatesOf (skillService E t0)), s.
    rewrite Nat.add_0_r. repeat split; auto.
  - apply IH in Hin as (i & tg & pool & s & Hn & Hp & Hrest).
    exists (S i), tg, pool, s. split; [exact Hn|].
    split; [|exact Hrest].
    rewrite <- Hp. f_equal. f_equal. lia.
Qed.

Lemma collectSkills_complete (E : Env) (cfg : Config) (loc : Location)
    (u : string) (tags : list string) :
  forall (t0 i : nat) (tag : string) (s : Skill),
    nth_error tags i = Some tag ->
    In s (candidatesOf (skillService E (t0 + i))) ->
    qualifies E cfg loc u tag s = true ->
    In (matchOfSkill E cfg loc u s) (collectSkills E cfg loc u tags t0).
Proof.
  induction tags as [|tg tags IH]; intros t0 [|i] tag s Hn Hp Hq;
    try discriminate Hn; cbn [collectSkills]; apply in_or_app.
  - left. injection Hn as ->. rewrite Nat.add_0_r in Hp.
    apply in_map, filter_In. auto.
  - right. apply (IH (S t0) i tag s Hn); [|exact Hq].
    replace (S t0 + i)%nat with (t0 + S i)%nat by lia. exact Hp.
Qed.

Lemma collectResources_provenance (E : Env) (loc : Location)
    (types : list string) :
  forall (t0 : nat) (m : ResourceMatch),
    In m (collectResources E loc types t0) ->
    resourceProvenance E loc types t0 m.
Proof.
  induction types as [|ty types IH]; intros t0 m Hin; [contradiction|].
  cbn [collectResources] in Hin. apply in_app_or in Hin as [Hin|Hin].
  - apply in_map_iff in Hin as (r & <- & Hr).
    apply filter_In in Hr as [Hpool Hf].
    unfold resourceFilter in Hf. apply andb_prop in Hf as [Ht Ha].
    apply String.eqb_eq in Ht, Ha.
    exists 0%nat, ty, (candidatesOf (resourceService E t0)), r.
    rewrite Nat.add_0_r. repeat split; auto.
  - apply IH in Hin as (i & tg & pool & r & Hn & Hp & Hrest).
    exists (S i), tg, pool, r. split; [exact Hn|].
    split; [|exact Hrest].
    rewrite <- Hp. f_equal. f_equal. lia.
Qed.

(** C4.  [findSkillMatches] completes normally; every element of its result
    is built from a record of a pool the registry answered for a searched
    tag, whose skill type is that tag, which is available and verified and
    whose score reaches the threshold; the result is sorted by descending
    score and, for a non-negative configured maximum, no longer than it. *)
Theorem findSkillMatches_sound (E : Env) (cfg : Config) (dt : string)
    (req : list string) (loc : Location) (u : string) (w : World) :
  (0 <= MAX_MATCHES_PER_REQUEST cfg)%Z ->
  exists (res : list SkillMatch) (w' : World),
    findSkillMatches E cfg dt req loc u w = (Normal res, w')
    /\ Forall (skillProvenance E cfg loc u (searchedTags dt req) (clock w)) res
    /\ StronglySorted scoreDescending res
    /\ (Z.of_nat (length res) <= MAX_MATCHES_PER_REQUEST cfg)%Z.
Proof.
  intros Hmax. rewrite findSkillMatches_run.
  eexists. eexists. split; [reflexivity|]. split; [|split].
  - apply Forall_forall. intros m Hm.
    apply slice0_In in Hm.
    apply (proj1 (sort_In byScoreDesc m _)) in Hm.
    now apply collectSkills_provenance.
  - apply slice0_sorted.
    apply (sort_sorted byScoreDesc scoreDescending byScoreDesc_iff
             scoreDescending_total scoreDescending_trans).
  - now apply slice0_length.
Qed.

Lemma findSkillMatches_sound_witness :
  exists (res : list SkillMatch) (w' : World),
    findSkillMatches medicEnv defaultConfig "fire" [] (mkLocation 0 0) "high"
      emptyWorld = (Normal res, w')
    /\ Forall (skillProvenance medicEnv defaultConfig (mkLocation 0 0) "high"
                 (searchedTags "fire" []) (clock emptyWorld)) res
    /\ StronglySorted scoreDescending res
    /\ (Z.of_nat (length res) <= MAX_MATCHES_PER_REQUEST defaultConfig)%Z.
Proof.
  apply (findSkillMatches_sound medicEnv defaultConfig "fire" []
           (mkLocation 0 0) "high" emptyWorld).
  simpl. lia.
Defined.

Lemma saveResourceMatch_row (E : Env) (matchId requestId : string)
    (m : ResourceMatch) (w w' : World) :
  saveResourceMatch E matchId requestId m w = (Normal tt, w') ->
  exists row : MatchRow,
    matches_table w' = matches_table w ++ [row]
    /\ match_id row = matchId
    /\ resource_id row = Some (rm_resourceId m)
    /\ match_score row = 8.0
    /\ trust_score row = None
    /\ status row = "pending".
Proof.
  unfold saveResourceMatch. step_effects.
  match goal with
  | |- context [if ?c then _ else _] => destruct c
  end; intros H; [|discriminate H].
  injection H as <-. eexists. split; [reflexivity|]. repeat split.
Qed.

(** C5.  [findResourceMatches] completes normally; every element of its
    result is built from a record of a pool the registry answered for a
    requested type, whose resource type is that type and which is available;
    the result is sorted by ascending distance and, for a non-negative
    configured maximum, no longer than it.  A resource match that
    [saveResourceMatch] persists is one new row carrying the score 8.0 and a
    null trust score. *)
Theorem findResourceMatches_sound (E : Env) (cfg : Config) (dt : string)
    (req : list string) (loc : Location) (u : string) (w : World)
    (matchId requestId : string) (m : ResourceMatch) (w1 w2 : World) :
  (0 <= MAX_MATCHES_PER_REQUEST cfg)%Z ->
  saveResourceMatch E matchId requestId m w1 = (Normal tt, w2) ->
  (exists (res : list ResourceMatch) (w' : World),
     findResourceMatches E cfg dt req loc u w = (Normal res, w')
     /\ Forall (resourceProvenance E loc req (clock w)) res
     /\ StronglySorted distanceAscending res
     /\ (Z.of_nat (length res) <= MAX_MATCHES_PER_REQUEST cfg)%Z)
  /\ (exists row : MatchRow,
        matches_table w2 = matches_table w1 ++ [row]
        /\ resource_id row = Some (rm_resourceId m)
        /\ match_score row = 8.0
        /\ trust_score row = None).
Proof.
  intros Hmax Hsave. split.
  - rewrite findResourceMatches_run.
    eexists. eexists. split; [reflexivity|]. split; [|split].
    + apply Forall_forall. intros x Hx.
      apply slice0_In in Hx.
      apply (proj1 (sort_In byDistanceAsc x _)) in Hx.
      now apply collectResources_provenance.
    + apply slice0_sorted.
      apply (sort_sorted byDistanceAsc distanceAscending byDistanceAsc_iff
               distanceAscending_total distanceAscending_trans).
    + now apply slice0_length.
  - destruct (saveResourceMatch_row _ _ _ _ _ _ Hsave)
      as (row & H1 & _ & H2 & H3 & H4 & _).
    exists row. auto.
Qed.

Lemma findResourceMatches_sound_witness :
  (exists (res : list ResourceMatch) (w' : World),
     findResourceMatches medicEnv defaultConfig "flood" ["boat"]
       (mkLocation 0 0) "high" emptyWorld = (Normal res, w')
     /\ Forall (resourceProvenance medicEnv (mkLocation 0 0) ["boat"]
                  (clock emptyWorld)) res
     /\ StronglySorted distanceAscending res
     /\ (Z.of_nat (length res) <= MAX_MATCHES_PER_REQUEST defaultConfig)%Z)
  /\ (exists row : MatchRow,
        matches_table
          (snd (saveResourceMatch medicEnv "match-a" "req1" boatMatch emptyWorld))
        = matches_table emptyWorld ++ [row]
        /\ resource_id row = Some (rm_resourceId boatMatch)
        /\ match_score row = 8.0
        /\ trust_score row = None).
Proof.
  apply (findResourceMatches_sound medicEnv defaultConfig "flood" ["boat"]
           (mkLocation 0 0) "high" emptyWorld "match-a" "req1" boatMatch
           emptyWorld
           (snd (saveResourceMatch medicEnv "match-a" "req1" boatMatch
                   emptyWorld))).
  - simpl. lia.
  - reflexivity.
Defined.

(* ------------------------------------------------------------------ *)
(** ** A failed registry query *)

Lemma collectSkills_answerEmptyAt (E : Env) (cfg : Config) (loc : Location)
    (u : string) (t : nat) (tags : list string) :
  skillService E t = None ->
  forall t0 : nat,
    collectSkills (answerEmptyAt E t) cfg loc u tags t0
    = collectSkills E cfg loc u tags t0.
Proof.
  intros Hfail. induction tags as [|tag tags IH]; intros t0; [reflexivity|].
  cbn [collectSkills]. rewrite IH. f_equal.
  assert (Hc : candidatesOf (skillService (answerEmptyAt E t) t0)
               = candidatesOf (skillService E t0)).
  { cbn [answerEmptyAt skillService].
    destruct (Nat.eqb_spec t0 t) as [->|_]; [|reflexivity].
    now rewrite Hfail. }
  rewrite Hc. reflexivity.
Qed.

(** C7, the claim as stated fails.  The query for the first tag fails, the
    query for the second tag answers two qualifying medics, and with a
    maximum of one match the result holds only the better of the two: the
    other qualifying candidate is not in it. *)
Lemma findSkillMatches_truncates_survivors :
  skillService medicEnv 1 = None
  /\ candidatesOf (skillService medicEnv 2) = [workedSkill; secondMedic]
  /\ qualifies medicEnv oneMatchConfig (mkLocation 0 0) "high" "medic"
       secondMedic = true
  /\ exists (res : list SkillMatch) (w' : World),
       findSkillMatches medicEnv oneMatchConfig "fire" ["plumber"; "medic"]
         (mkLocation 0 0) "high" (mkWorld [] [] [] 1) = (Normal res, w')
       /\ ~ In (matchOfSkill medicEnv oneMatchConfig (mkLocation 0 0) "high"
                  secondMedic) res.
Proof.
  split; [reflexivity|]. split; [reflexivity|]. split; [reflexivity|].
  eexists. eexists. split; [vm_compute; reflexivity|].
  intros [H|[]]. vm_compute in H. discriminate H.
Qed.

(** C7, amended.  When the query for the [j]-th tag fails, [findSkillMatches] does
    not raise and answers what it would answer had that query returned an
    empty list: the first [MAX_MATCHES_PER_REQUEST] of all qualifying
    candidates of the answered tags, by descending score.  A qualifying
    candidate of another tag is among the collected matches; it is in the
    result when the collected matches do not exceed the maximum, and the
    result is non-empty whenever the maximum is at least 1. *)
Theorem findSkillMatches_failed_tag_skipped (E : Env) (cfg : Config)
    (dt : string) (req : list string) (loc : Location) (u : string)
    (w : World) (j i : nat) (tag : string) (s : Skill) :
  (j < length (searchedTags dt req))%nat ->
  skillService E (clock w + j) = None ->
  nth_error (searchedTags dt req) i = Some tag ->
  In s (candidatesOf (skillService E (clock w + i))) ->
  qualifies E cfg loc u tag s = true ->
  let all := collectSkills E cfg loc u (searchedTags dt req) (clock w) in
  exists (res : list SkillMatch) (w' : World),
    findSkillMatches E cfg dt req loc u w = (Normal res, w')
    /\ fst (findSkillMatches (answerEmptyAt E (clock w + j)) cfg dt req loc u w)
       = Normal res
    /\ res = slice0 (sort byScoreDesc all) (MAX_MATCHES_PER_REQUEST cfg)
    /\ In (matchOfSkill E cfg loc u s) all
    /\ ((Z.of_nat (length all) <= MAX_MATCHES_PER_REQUEST cfg)%Z ->
        In (matchOfSkill E cfg loc u s) res)
    /\ ((1 <= MAX_MATCHES_PER_REQUEST cfg)%Z -> res <> []).
Proof.
  intros _ Hfail Hn Hp Hq all.
  assert (Hall : In (matchOfSkill E cfg loc u s) all)
    by (eapply collectSkills_complete; eauto).
  rewrite !findSkillMatches_run. cbn [fst].
  rewrite (collectSkills_answerEmptyAt E cfg loc u _ _ Hfail).
  eexists. eexists. split; [reflexivity|].
  split; [reflexivity|]. split; [reflexivity|]. split; [exact Hall|]. split.
  - intros Hlen. rewrite slice0_all.
    + now apply (proj2 (sort_In byScoreDesc _ _)).
    + now rewrite sort_length.
  - intros Hmax. apply slice0_nonempty; [exact Hmax|].
    intros Hnil. apply (proj2 (sort_In byScoreDesc _ _)) in Hall.
    fold all in Hnil. rewrite Hnil in Hall. contradiction.
Qed.

Lemma findSkillMatches_failed_tag_skipped_witness :
  exists (res : list SkillMatch) (w' : World),
    findSkillMatches medicEnv defaultConfig "fire" [] (mkLocation 0 0) "high"
      emptyWorld = (Normal res, w')
    /\ fst (findSkillMatches (answerEmptyAt medicEnv (clock emptyWorld + 0))
              defaultConfig "fire" [] (mkLocation 0 0) "high" emptyWorld)
       = Normal res
    /\ In (matchOfSkill medicEnv defaultConfig (mkLocation 0 0) "high"
             secondMedic) res
    /\ res <> [].
Proof.
  destruct (findSkillMatches_failed_tag_skipped medicEnv defaultConfig "fire"
              [] (mkLocation 0 0) "high" emptyWorld 0 2 "medic" secondMedic)
    as (res & w' & Hrun & Hsame & _ & _ & Hin & Hne).
  - simpl. lia.
  - reflexivity.
  - reflexivity.
  - simpl. right. left. reflexivity.
  - reflexivity.
  - exists res, w'. split; [exact Hrun|]. split; [exact Hsame|]. split.
    + apply Hin. vm_compute. discriminate.
    + apply Hne. vm_compute. discriminate.
Defined.

(* ------------------------------------------------------------------ *)
(** ** The orchestration pipeline *)

Lemma forOf_app {A B} (body : B -> A -> M B) (l1 l2 : list A) :
  forall (acc : B) (w : World),
    forOf (l1 ++ l2) body acc w
    = match forOf l1 body acc w with
      | (Normal acc', w') => forOf l2 body acc' w'
      | (Throw e, w') => (Throw e, w')
      end.
Proof.
  induction l1 as [|x l1 IH]; intros acc w; [reflexivity|].
  cbn [app forOf]. unfold bind.
  destruct (body acc x w) as [[acc'|e] w']; [apply IH | reflexivity].
Qed.

Lemma forOf_map_inl (E : Env) (rid : string) (sk : list SkillMatch) :
  forall (acc : list SavedMatch) (w : World),
    forOf (map inl sk) (persistOne E rid) acc w
    = forOf sk (persistSkill E rid) acc w.
Proof.
  induction sk as [|s sk IH]; intros acc w; [reflexivity|].
  cbn [map forOf persistOne]. unfold bind.
  destruct (persistSkill E rid acc s w) as [[acc'|e] w'];
    [apply IH | reflexivity].
Qed.

Lemma forOf_map_inr (E : Env) (rid : string) (rs : list ResourceMatch) :
  forall (acc : list SavedMatch) (w : World),
    forOf (map inr rs) (persistOne E rid) acc w
    = forOf rs (persistResource E rid) acc w.
Proof.
  induction rs as [|r rs IH]; intros acc w; [reflexivity|].
  cbn [map forOf persistOne]. unfold bind.
  destruct (persistResource E rid acc r w) as [[acc'|e] w'];
    [apply IH | reflexivity].
Qed.

Lemma forOf_toPersist (E : Env) (rid : string) (sk : list SkillMatch)
    (rs : list ResourceMatch) (acc : list SavedMatch) (w : World) :
  forOf (toPersist sk rs) (persistOne E rid) acc w
  = match forOf sk (persistSkill E rid) acc w with
    | (Normal acc', w') => forOf rs (persistResource E rid) acc' w'
    | (Throw e, w') => (Throw e, w')
    end.
Proof.
  unfold toPersist. rewrite forOf_app, forOf_map_inl.
  destruct (forOf sk (persistSkill E rid) acc w) as [[acc'|e] w'];
    [apply forOf_map_inr | reflexivity].
Qed.

Lemma resolveDisasterType_run (E : Env) (disasterId : string) (w : World) :
  resolveDisasterType E disasterId w
  = (Normal (match disasterService E (clock w) with
             | Some disasterType => disasterType
             | None => "flood"
             end),
     afterCalls w [GET_disaster disasterId]).
Proof.
  unfold resolveDisasterType, axios_get_disaster, afterCalls. step_effects.
  cbn [length Nat.add].
  destruct (disasterService E (clock w)); reflexivity.
Qed.

(** The matching phase never throws, writes nothing to the table or the
    queue, and issues no status report. *)
Lemma matchingPhase_run (E : Env) (cfg : Config) (sos : SOSData) (w : World) :
  exists (sk : list SkillMatch) (rs : list ResourceMatch)
         (calls : list HttpCall),
    matchingPhase E cfg sos w = (Normal (toPersist sk rs), afterCalls w calls)
    /\ filter isStatusPut calls = [].
Proof.
  unfold matchingPhase, bind.
  rewrite resolveDisasterType_run. cbv beta iota.
  rewrite findSkillMatches_run. cbv beta iota.
  rewrite findResourceMatches_run. cbv beta iota.
  rewrite !afterCalls_app. unfold ret.
  eexists. eexists. eexists. split; [reflexivity|].
  rewrite !filter_app. cbn [filter isStatusPut app].
  assert (Hrep : forall c n, isStatusPut c = false ->
                             filter isStatusPut (repeat c n) = []).
  { intros c n Hc. induction n as [|n IH]; [reflexivity|].
    cbn [repeat filter]. now rewrite Hc. }
  rewrite !Hrep by reflexivity. reflexivity.
Qed.

(** The pipeline is its three phases in sequence, under a handler that
    rethrows. *)
Lemma processSOSRequest_phases (E : Env) (cfg : Config) (sos : SOSData)
    (w : World) :
  processSOSRequest E cfg sos w
  = tryCatch
      (records <- matchingPhase E cfg sos ;;
       savedMatches <- forOf records (persistOne E (sos_requestId sos)) [] ;;
       reportAndNotify E (sos_requestId sos) savedMatches)
      (fun error => throw error) w.
Proof.
  unfold processSOSRequest, matchingPhase, reportAndNotify.
  change (tryCatch (axios_get_disaster E (sos_disasterId sos))
                   (fun _ => ret "flood"))
    with (resolveDisasterType E (sos_disasterId sos)).
  unfold tryCatch at 1 3. unfold bind.
  destruct (resolveDisasterType E (sos_disasterId sos) w) as [[dt|e] w1];
    [|reflexivity].
  destruct (findSkillMatches E cfg dt _ _ _ w1) as [[sk|e] w2]; [|reflexivity].
  destruct (findResourceMatches E cfg dt _ _ _ w2) as [[rs|e] w3];
    [|reflexivity].
  unfold ret. cbv beta iota. rewrite forOf_toPersist.
  destruct (forOf sk (persistSkill E (sos_requestId sos)) [] w3)
    as [[saved|e] w4]; reflexivity.
Qed.

Lemma processSOSRequest_persist_throw (E : Env) (cfg : Config) (sos : SOSData)
    (w w3 w4 : World) (records : list (SkillMatch + ResourceMatch))
    (e : string) :
  matchingPhase E cfg sos w = (Normal records, w3) ->
  forOf records (persistOne E (sos_requestId sos)) [] w3 = (Throw e, w4) ->
  processSOSRequest E cfg sos w = (Throw e, w4).
Proof.
  intros Hm Hp. rewrite processSOSRequest_phases.
  unfold tryCatch, bind. rewrite Hm, Hp. reflexivity.
Qed.

(** Persisting one record touches neither the queue nor the HTTP log; it
    adds exactly one row when it completes and none when it throws. *)
Lemma persistOne_frame (E : Env) (rid : string) (saved : list SavedMatch)
    (x : SkillMatch + ResourceMatch) (w w' : World)
    (r : Completion (list SavedMatch)) :
  persistOne E rid saved x w = (r, w') ->
  queue w' = queue w
  /\ http_log w' = http_log w
  /\ match r with
     | Normal _ => length (matches_table w') = S (length (matches_table w))
     | Throw _ => matches_table w' = matches_table w
     end.
Proof.
  destruct x as [s|rm];
    unfold persistOne, persistSkill, persistResource, saveMatch,
      saveResourceMatch;
    step_effects;
    match goal with
    | |- context [if ?c then _ else _] => destruct c
    end;
    intros H; injection H as <- <-;
    cbn [clock matches_table http_log queue];
    repeat split; rewrite ?length_app; cbn [length]; lia.
Qed.

Lemma forOf_persistOne_frame (E : Env) (rid : string)
    (l : list (SkillMatch + ResourceMatch)) :
  forall (acc saved : list SavedMatch) (w w' : World),
    forOf l (persistOne E rid) acc w = (Normal saved, w') ->
    queue w' = queue w
    /\ http_log w' = http_log w
    /\ length (matches_table w') = (length (matches_table w) + length l)%nat.
Proof.
  induction l as [|x l IH]; intros acc saved w w' H.
  - injection H as _ <-. cbn [length]. repeat split. lia.
  - cbn [forOf] in H. unfold bind in H.
    destruct (persistOne E rid acc x w) as [[acc1|e] w1] eqn:Hx;
      [|discriminate H].
    apply persistOne_frame in Hx as (Hq & Hh & Ht).
    apply IH in H as (Hq' & Hh' & Ht').
    cbn [length]. repeat split; try congruence. lia.
Qed.

(** A refused write makes the persistence of a record throw. *)
Lemma persistOne_store_down (E : Env) (rid : string)
    (saved : list SavedMatch) (x : SkillMatch + ResourceMatch) (w : World) :
  storeAvailable E (S (clock w)) = false ->
  exists w' : World,
    persistOne E rid saved x w = (Throw "DatabaseError", w').
Proof.
  intros Hdown.
  destruct x as [s|rm];
    unfold persistOne, persistSkill, persistResource, saveMatch,
      saveResourceMatch;
    step_effects;
    rewrite Hdown; cbn [andb]; eexists; reflexivity.
Qed.

(** C8.  When the records to persist are [pre ++ x :: post], [pre] has been
    persisted and persisting [x] throws, [processSOSRequest] throws the same
    error to its caller and stops in the world of the failure: the table
    holds the rows it had before the run plus one per record of [pre] (neither
    [x] nor any record of [post] is persisted), nothing has been published to
    the queue, and no status report has been sent. *)
Theorem processSOSRequest_persistence_failure (E : Env) (cfg : Config)
    (sos : SOSData) (w w3 w4 w5 : World)
    (records pre post : list (SkillMatch + ResourceMatch))
    (x : SkillMatch + ResourceMatch) (saved : list SavedMatch) (e : string) :
  matchingPhase E cfg sos w = (Normal records, w3) ->
  records = pre ++ x :: post ->
  forOf pre (persistOne E (sos_requestId sos)) [] w3 = (Normal saved, w4) ->
  persistOne E (sos_requestId sos) saved x w4 = (Throw e, w5) ->
  processSOSRequest E cfg sos w = (Throw e, w5)
  /\ matches_table w5 = matches_table w4
  /\ length (matches_table w5) = (length (matches_table w) + length pre)%nat
  /\ queue w5 = queue w
  /\ filter isStatusPut (http_log w5) = filter isStatusPut (http_log w).
Proof.
  intros Hm -> Hpre Hx.
  assert (Hrun : forOf (pre ++ x :: post) (persistOne E (sos_requestId sos))
                   [] w3 = (Throw e, w5)).
  { rewrite forOf_app, Hpre. cbn [forOf]. unfold bind. now rewrite Hx. }
  split; [exact (processSOSRequest_persist_throw _ _ _ _ _ _ _ _ Hm Hrun)|].
  destruct (matchingPhase_run E cfg sos w) as (sk & rs & calls & Hm' & Hcalls).
  rewrite Hm in Hm'. injection Hm' as _ ->.
  apply forOf_persistOne_frame in Hpre as (Hq4 & Hh4 & Ht4).
  apply persistOne_frame in Hx as (Hq5 & Hh5 & Ht5).
  unfold afterCalls in *. cbn [matches_table http_log queue] in *.
  split; [exact Ht5|]. split; [congruence|]. split; [congruence|].
  rewrite Hh5, Hh4, filter_app, Hcalls. apply app_nil_r.
Qed.

Lemma processSOSRequest_persistence_failure_witness :
  processSOSRequest flakyEnv defaultConfig floodRequest emptyWorld
  = (Throw "DatabaseError", floodAborted)
  /\ matches_table floodAborted = matches_table floodOnePersisted
  /\ length (matches_table floodAborted)
     = (length (matches_table emptyWorld) + length floodFirst)%nat
  /\ queue floodAborted = queue emptyWorld
  /\ filter isStatusPut (http_log floodAborted)
     = filter isStatusPut (http_log emptyWorld).
Proof.
  apply (processSOSRequest_persistence_failure flakyEnv defaultConfig
           floodRequest emptyWorld floodMatched floodOnePersisted floodAborted
           floodRecords floodFirst floodRest floodSecond floodSaved
           "DatabaseError").
  - vm_compute. reflexivity.
  - vm_compute. reflexivity.
  - vm_compute. reflexivity.
  - vm_compute. reflexivity.
Defined.

(* ------------------------------------------------------------------ *)
(** ** The lifecycle routes *)

Lemma existsb_filter {A : Type} (f : A -> bool) (l : list A) :
  existsb f l = match filter f l with [] => false | _ :: _ => true end.
Proof.
  induction l as [|x l IH]; simpl; [reflexivity|].
  destruct (f x); simpl; [reflexivity | exact IH].
Qed.

Lemma updated_none (condition : MatchRow -> bool)
    (assign : nat -> MatchRow -> MatchRow) (now : nat) (rows : list MatchRow) :
  existsb condition rows = false -> updated condition assign now rows = rows.
Proof.
  unfold updated. induction rows as [|r rows IH]; simpl; [reflexivity|].
  destruct (condition r); simpl; [discriminate|].
  intros H. now rewrite IH.
Qed.

Lemma acceptRoute_run (E : Env) (matchId volunteerId : string) (w : World) :
  storeAvailable E (clock w) = true ->
  succeeded (fst (acceptRoute E matchId volunteerId w))
    = existsb (ownedBy matchId volunteerId) (matches_table w)
  /\ notFound (fst (acceptRoute E matchId volunteerId w))
    = negb (existsb (ownedBy matchId volunteerId) (matches_table w))
  /\ matches_table (snd (acceptRoute E matchId volunteerId w))
    = updated (ownedBy matchId volunteerId) setAccepted (clock w)
        (matches_table w).
Proof.
  intros Hup.
  unfold acceptRoute, updated. step_effects. rewrite Hup.
  rewrite existsb_filter.
  destruct (filter (ownedBy matchId volunteerId) (matches_table w));
    cbn [map fst snd succeeded notFound negb matches_table]; auto.
Qed.

Lemma rejectRoute_run (E : Env) (matchId volunteerId : string)
    (reason : option string) (w : World) :
  storeAvailable E (clock w) = true ->
  succeeded (fst (rejectRoute E matchId volunteerId reason w))
    = existsb (ownedBy matchId volunteerId) (matches_table w)
  /\ notFound (fst (rejectRoute E matchId volunteerId reason w))
    = negb (existsb (ownedBy matchId volunteerId) (matches_table w))
  /\ matches_table (snd (rejectRoute E matchId volunteerId reason w))
    = updated (ownedBy matchId volunteerId) (setRejected reason) (clock w)
        (matches_table w).
Proof.
  intros Hup.
  unfold rejectRoute, updated. step_effects. rewrite Hup.
  rewrite existsb_filter.
  destruct (filter (ownedBy matchId volunteerId) (matches_table w));
    cbn [map fst snd succeeded notFound negb matches_table]; auto.
Qed.

(** No message is published when no row is owned. *)
Lemma acceptRoute_quiet (E : Env) (matchId volunteerId : string) (w : World) :
  existsb (ownedBy matchId volunteerId) (matches_table w) = false ->
  queue (snd (acceptRoute E matchId volunteerId w)) = queue w.
Proof.
  rewrite existsb_filter.
  unfold acceptRoute. step_effects.
  destruct (storeAvailable E (clock w)); [|reflexivity].
  destruct (filter (ownedBy matchId volunteerId) (matches_table w));
    [reflexivity | discriminate].
Qed.

(** C1, the claim as stated fails.  On a match that is already accepted, a
    second accept by its volunteer is answered 200 (not 404) and rewrites the
    row, and a reject is answered 200 and turns the accepted match into a
    rejected one. *)
Lemma accept_is_not_terminal :
  map status (matches_table acceptedWorld) = ["accepted"]
  /\ succeeded (fst (acceptRoute quietEnv "m1" "v1" acceptedWorld)) = true
  /\ notFound (fst (acceptRoute quietEnv "m1" "v1" acceptedWorld)) = false
  /\ matches_table (snd (acceptRoute quietEnv "m1" "v1" acceptedWorld))
     <> matches_table acceptedWorld
  /\ succeeded (fst (rejectRoute quietEnv "m1" "v1" (Some "busy") acceptedWorld))
     = true
  /\ map status
       (matches_table
          (snd (rejectRoute quietEnv "m1" "v1" (Some "busy") acceptedWorld)))
     = ["rejected"].
Proof.
  split; [reflexivity|]. split; [reflexivity|]. split; [reflexivity|].
  split; [|split; reflexivity].
  vm_compute. intros H. discriminate H.
Qed.

(** C1, amended.  While the store answers, Accept and Reject depend on
    ownership only, not on the stored status: each succeeds exactly when a
    stored match has the given match id and volunteer id, and then rewrites
    every such row; when no stored match has both, each answers
    not-found/unauthorized and leaves the table as it was. *)
Theorem accept_reject_by_ownership (E : Env) (matchId volunteerId : string)
    (reason : option string) (w : World) :
  storeAvailable E (clock w) = true ->
  let owned := existsb (ownedBy matchId volunteerId) (matches_table w) in
  let accept := acceptRoute E matchId volunteerId w in
  let reject := rejectRoute E matchId volunteerId reason w in
  succeeded (fst accept) = owned
  /\ succeeded (fst reject) = owned
  /\ notFound (fst accept) = negb owned
  /\ notFound (fst reject) = negb owned
  /\ matches_table (snd accept)
     = updated (ownedBy matchId volunteerId) setAccepted (clock w)
         (matches_table w)
  /\ matches_table (snd reject)
     = updated (ownedBy matchId volunteerId) (setRejected reason) (clock w)
         (matches_table w)
  /\ (owned = false ->
      matches_table (snd accept) = matches_table w
      /\ matches_table (snd reject) = matches_table w
      /\ queue (snd accept) = queue w).
Proof.
  intros Hup owned accept reject.
  destruct (acceptRoute_run E matchId volunteerId w Hup) as (A1 & A2 & A3).
  destruct (rejectRoute_run E matchId volunteerId reason w Hup)
    as (R1 & R2 & R3).
  repeat split; try assumption.
  - subst accept. rewrite A3. now apply updated_none.
  - subst reject. rewrite R3. now apply updated_none.
  - subst accept. now apply acceptRoute_quiet.
Qed.

Lemma accept_reject_by_ownership_witness :
  let owned := existsb (ownedBy "m1" "v1") (matches_table acceptedWorld) in
  let accept := acceptRoute quietEnv "m1" "v1" acceptedWorld in
  let reject := rejectRoute quietEnv "m1" "v1" (Some "busy") acceptedWorld in
  succeeded (fst accept) = owned
  /\ succeeded (fst reject) = owned
  /\ notFound (fst accept) = negb owned
  /\ notFound (fst reject) = negb owned
  /\ matches_table (snd accept)
     = updated (ownedBy "m1" "v1") setAccepted (clock acceptedWorld)
         (matches_table acceptedWorld)
  /\ matches_table (snd reject)
     = updated (ownedBy "m1" "v1") (setRejected (Some "busy"))
         (clock acceptedWorld) (matches_table acceptedWorld)
  /\ (owned = false ->
      matches_table (snd accept) = matches_table acceptedWorld
      /\ matches_table (snd reject) = matches_table acceptedWorld
      /\ queue (snd accept) = queue acceptedWorld).
Proof.
  apply (accept_reject_by_ownership quietEnv "m1" "v1" (Some "busy")
           acceptedWorld).
  reflexivity.
Defined.

(* ------------------------------------------------------------------ *)
(** ** Further properties *)

(** With a non-zero trust score of 8 the code and the documented formula
    agree at every distance and urgency. *)
Lemma calculateMatchScore_formula_witness :
  calculateMatchScore defaultConfig workedSkill 10 "medium"
  == spec_score (Some 8) 10 50 "medium" "expert".
Proof.
  apply (calculateMatchScore_formula defaultConfig workedSkill 10 "medium").
  simpl. discriminate.
Defined.

(** X3.  Urgency: all else equal, a candidate with a valid trust score never
    scores lower under ["critical"] than under ["low"]. *)
Theorem calculateMatchScore_critical_ge_low (cfg : Config) (skill : Skill)
    (d : Q) :
  validTrust (skill_trustScore skill) ->
  calculateMatchScore cfg skill d "low"
  <= calculateMatchScore cfg skill d "critical".
Proof.
  intros Ht. unfold calculateMatchScore.
  pose proof (orDefault_nonneg _ Ht) as H1.
  pose proof (Qmax0_nonneg (10 - d / MAX_MATCH_RADIUS cfg * 10)) as H2.
  set (t := orDefault (skill_trustScore skill) 5.0) in *.
  set (ds := Qmax 0 (10 - d / MAX_MATCH_RADIUS cfg * 10)) in *.
  change (urgencyMultiplier "low") with 1.0.
  change (urgencyMultiplier "critical") with 1.2.
  assert (H3 : 0 <= t * 0.4) by (apply Qmult_le_0_compat; lra).
  assert (H4 : 0 <= ds * 0.3) by (apply Qmult_le_0_compat; lra).
  apply Q.min_le_compat_l.
  destruct (skill_certificationLevel skill =? "expert")%string; [lra|].
  destruct (skill_certificationLevel skill =? "intermediate")%string; lra.
Qed.

Lemma calculateMatchScore_critical_ge_low_witness :
  calculateMatchScore defaultConfig workedSkill 10 "low"
  <= calculateMatchScore defaultConfig workedSkill 10 "critical".
Proof.
  apply (calculateMatchScore_critical_ge_low defaultConfig workedSkill 10).
  simpl. split; discriminate.
Defined.

(** X4.  Ownership: while the store answers, an accept or a reject by a
    volunteer who owns no stored match of that id is answered
    not-found/unauthorized and changes no row. *)
Theorem lifecycle_requires_ownership (E : Env) (matchId volunteerId : string)
    (reason : option string) (w : World) :
  storeAvailable E (clock w) = true ->
  (forall r, In r (matches_table w) ->
             match_id r = matchId -> volunteer_id r <> volunteerId) ->
  notFound (fst (acceptRoute E matchId volunteerId w)) = true
  /\ notFound (fst (rejectRoute E matchId volunteerId reason w)) = true
  /\ matches_table (snd (acceptRoute E matchId volunteerId w))
     = matches_table w
  /\ matches_table (snd (rejectRoute E matchId volunteerId reason w))
     = matches_table w.
Proof.
  intros Hup Hown.
  assert (Hnone : existsb (ownedBy matchId volunteerId) (matches_table w)
                  = false).
  { destruct (existsb _ _) eqn:Hex; [|reflexivity].
    apply existsb_exists in Hex as (r & Hin & Ho).
    unfold ownedBy in Ho. apply andb_prop in Ho as [Hm Hv].
    apply String.eqb_eq in Hm, Hv.
    exfalso. exact (Hown r Hin Hm Hv). }
  destruct (acceptRoute_run E matchId volunteerId w Hup) as (_ & A2 & A3).
  destruct (rejectRoute_run E matchId volunteerId reason w Hup)
    as (_ & R2 & R3).
  rewrite A2, R2, A3, R3, Hnone.
  repeat split; now apply updated_none.
Qed.

Lemma lifecycle_requires_ownership_witness :
  notFound (fst (acceptRoute quietEnv "m1" "intruder" pendingWorld)) = true
  /\ notFound (fst (rejectRoute quietEnv "m1" "intruder" None pendingWorld))
     = true
  /\ matches_table (snd (acceptRoute quietEnv "m1" "intruder" pendingWorld))
     = matches_table pendingWorld
  /\ matches_table
       (snd (rejectRoute quietEnv "m1" "intruder" None pendingWorld))
     = matches_table pendingWorld.
Proof.
  apply (lifecycle_requires_ownership quietEnv "m1" "intruder" None
           pendingWorld).
  - reflexivity.
  - simpl. intros r [<-|[]] _. simpl. discriminate.
Defined.

Lemma forOf_notify_run (rid : string) (saved : list SavedMatch) :
  forall w : World,
    forOf saved (notify rid) tt w
    = (Normal tt,
       mkWorld (matches_table w) (http_log w)
               (queue w ++ createdEvents rid saved) (clock w)).
Proof.
  induction saved as [|s saved IH]; intros w.
  - cbn [forOf createdEvents map]. unfold ret. rewrite app_nil_r.
    now destruct w.
  - cbn [forOf]. unfold bind at 1, notify at 1, publishToQueue.
    rewrite IH. cbn [matches_table http_log queue clock createdEvents map].
    now rewrite <- app_assoc.
Qed.

Lemma persistOne_length (E : Env) (rid : string) (saved saved' : list SavedMatch)
    (x : SkillMatch + ResourceMatch) (w w' : World) :
  persistOne E rid saved x w = (Normal saved', w') ->
  length saved' = S (length saved).
Proof.
  destruct x as [s|rm];
    unfold persistOne, persistSkill, persistResource, saveMatch,
      saveResourceMatch;
    step_effects;
    match goal with
    | |- context [if ?c then _ else _] => destruct c
    end;
    intros H; try discriminate H; injection H as <- _;
    rewrite length_app; cbn [length]; lia.
Qed.

Lemma forOf_persistOne_length (E : Env) (rid : string)
    (l : list (SkillMatch + ResourceMatch)) :
  forall (acc saved : list SavedMatch) (w w' : World),
    forOf l (persistOne E rid) acc w = (Normal saved, w') ->
    length saved = (length acc + length l)%nat.
Proof.
  induction l as [|x l IH]; intros acc saved w w' H.
  - injection H as <- _. cbn [length]. lia.
  - cbn [forOf] in H. unfold bind in H.
    destruct (persistOne E rid acc x w) as [[acc1|e] w1] eqn:Hx;
      [|discriminate H].
    apply persistOne_length in Hx. apply IH in H. cbn [length]. lia.
Qed.

(** X5.  The success path of the pipeline: when every record is persisted,
    [processSOSRequest] returns the saved matches, one per record; the table
    has grown by one row per record; exactly one status report has been
    sent (whether or not the SOS service accepted it); and one
    [match.created] message per saved match has been published, in order. *)
Theorem processSOSRequest_all_persisted (E : Env) (cfg : Config)
    (sos : SOSData) (w w3 w4 : World)
    (records : list (SkillMatch + ResourceMatch)) (saved : list SavedMatch) :
  matchingPhase E cfg sos w = (Normal records, w3) ->
  forOf records (persistOne E (sos_requestId sos)) [] w3 = (Normal saved, w4) ->
  exists w5 : World,
    processSOSRequest E cfg sos w = (Normal saved, w5)
    /\ length saved = length records
    /\ matches_table w5 = matches_table w4
    /\ length (matches_table w5)
       = (length (matches_table w) + length records)%nat
    /\ queue w5 = queue w ++ createdEvents (sos_requestId sos) saved
    /\ filter isStatusPut (http_log w5)
       = filter isStatusPut (http_log w)
         ++ [PUT_status (sos_requestId sos) "matched"].
Proof.
  intros Hm Hp.
  rewrite processSOSRequest_phases.
  unfold tryCatch at 1. unfold bind at 1. rewrite Hm.
  unfold bind at 1. rewrite Hp.
  destruct (matchingPhase_run E cfg sos w) as (sk & rs & calls & Hm' & Hcalls).
  rewrite Hm in Hm'. injection Hm' as _ ->.
  pose proof (forOf_persistOne_length _ _ _ _ _ _ _ Hp) as Hlen.
  apply forOf_persistOne_frame in Hp as (Hq4 & Hh4 & Ht4).
  unfold reportAndNotify, axios_put_status. step_effects.
  destruct (sosService E (clock w4));
    rewrite forOf_notify_run;
    cbn [matches_table http_log queue clock];
    (eexists; split; [reflexivity|];
     cbn [matches_table http_log queue clock];
     unfold afterCalls in *; cbn [matches_table http_log queue] in *;
     split; [exact Hlen|]; split; [reflexivity|]; split; [exact Ht4|];
     split; [now rewrite Hq4|];
     rewrite Hh4, !filter_app, Hcalls; cbn [filter isStatusPut];
     now rewrite app_nil_r).
Qed.

Lemma processSOSRequest_all_persisted_witness :
  exists w5 : World,
    processSOSRequest medicEnv defaultConfig floodRequest emptyWorld
    = (Normal floodAllSaved, w5)
    /\ length floodAllSaved = length floodRecords
    /\ matches_table w5 = matches_table floodPersisted
    /\ length (matches_table w5)
       = (length (matches_table emptyWorld) + length floodRecords)%nat
    /\ queue w5 = queue emptyWorld ++ createdEvents "req1" floodAllSaved
    /\ filter isStatusPut (http_log w5)
       = filter isStatusPut (http_log emptyWorld)
         ++ [PUT_status "req1" "matched"].
Proof.
  apply (processSOSRequest_all_persisted medicEnv defaultConfig floodRequest
           emptyWorld floodMatched floodPersisted floodRecords floodAllSaved).
  - vm_compute. reflexivity.
  - vm_compute. reflexivity.
Defined.

(* ------------------------------------------------------------------ *)
(** ** More on scoring *)

Lemma distanceScore_le_10 (r d : Q) :
  0 < r -> 0 <= d -> Qmax 0 (10 - (d / r) * 10) <= 10.
Proof.
  intros Hr Hd. apply Q.max_lub; [lra|].
  assert (0 <= d / r).
  { unfold Qdiv. apply Qmult_le_0_compat; [exact Hd|].
    apply Qlt_le_weak, Qinv_lt_0_compat, Hr. }
  lra.
Qed.

Lemma distanceScore_saturates (r d : Q) :
  0 < r -> r <= d -> Qmax 0 (10 - (d / r) * 10) == 0.
Proof.
  intros Hr Hd. apply Q.max_l.
  assert (1 <= d / r).
  { apply Qle_shift_div_l; [exact Hr | lra]. }
  lra.
Qed.

(** X6.  The clamp never binds on valid input: with a trust score that is
    absent or in [0,10], a positive radius and a non-negative distance, the
    score is at most 9.4 = (10*0.4 + 10*0.3) * 1.2 + 1.0. *)
Theorem calculateMatchScore_at_most_9_4 (cfg : Config) (skill : Skill) (d : Q)
    (u : string) :
  0 < MAX_MATCH_RADIUS cfg ->
  validTrust (skill_trustScore skill) ->
  0 <= d ->
  calculateMatchScore cfg skill d u <= 9.4.
Proof.
  intros Hr Ht Hd. unfold calculateMatchScore.
  pose proof (orDefault_nonneg _ Ht) as H0.
  assert (H1 : orDefault (skill_trustScore skill) 5.0 <= 10).
  { destruct (skill_trustScore skill) as [q|]; simpl in *.
    - destruct (Qeq_bool q 0); [lra | tauto].
    - lra. }
  pose proof (distanceScore_le_10 _ _ Hr Hd) as H2.
  pose proof (Qmax0_nonneg (10 - d / MAX_MATCH_RADIUS cfg * 10)) as H3.
  set (t := orDefault (skill_trustScore skill) 5.0) in *.
  set (ds := Qmax 0 (10 - d / MAX_MATCH_RADIUS cfg * 10)) in *.
  assert (Hm : 0 < urgencyMultiplier u /\ urgencyMultiplier u <= 1.2).
  { unfold urgencyMultiplier.
    destruct (u =? "critical")%string; [lra|].
    destruct (u =? "high")%string; lra. }
  set (m := urgencyMultiplier u) in *.
  assert (Hb : (0 + t * 0.4 + ds * 0.3) * m <= 8.4).
  { assert (Hb0 : 0 <= 0 + t * 0.4 + ds * 0.3) by lra.
    assert (Hb1 : 0 + t * 0.4 + ds * 0.3 <= 7) by lra.
    apply Qle_trans with (7 * m).
    - apply Qmult_le_compat_r; lra.
    - lra. }
  apply Qle_trans
    with (if (skill_certificationLevel skill =? "expert")%string
          then (0 + t * 0.4 + ds * 0.3) * m + 1.0
          else if (skill_certificationLevel skill =? "intermediate")%string
               then (0 + t * 0.4 + ds * 0.3) * m + 0.5
               else (0 + t * 0.4 + ds * 0.3) * m);
    [apply Q.le_min_r|].
  destruct (skill_certificationLevel skill =? "expert")%string; [lra|].
  destruct (skill_certificationLevel skill =? "intermediate")%string; lra.
Qed.

Lemma calculateMatchScore_at_most_9_4_witness :
  calculateMatchScore defaultConfig workedSkill 0 "critical" <= 9.4.
Proof.
  apply (calculateMatchScore_at_most_9_4 defaultConfig workedSkill 0
           "critical").
  - reflexivity.
  - simpl. split; discriminate.
  - discriminate.
Defined.

(** X7.  Trust: between two candidates that differ in trust score only, both
    scores being positive, the one with the higher trust score never scores
    lower. *)
Theorem calculateMatchScore_monotone_in_trust (cfg : Config) (skill : Skill)
    (t1 t2 d : Q) (u : string) :
  0 < t1 -> t1 <= t2 ->
  calculateMatchScore cfg (withTrust skill (Some t1)) d u
  <= calculateMatchScore cfg (withTrust skill (Some t2)) d u.
Proof.
  intros H1 H2. unfold calculateMatchScore.
  cbn [withTrust skill_trustScore skill_certificationLevel].
  rewrite !orDefault_truthy by lra.
  pose proof (urgencyMultiplier_pos u) as Hm.
  set (ds := Qmax 0 (10 - d / MAX_MATCH_RADIUS cfg * 10)).
  set (m := urgencyMultiplier u) in *.
  assert (Hb : (0 + t1 * 0.4 + ds * 0.3) * m <= (0 + t2 * 0.4 + ds * 0.3) * m).
  { apply Qmult_le_compat_r; lra. }
  apply Q.min_le_compat_l.
  destruct (skill_certificationLevel skill =? "expert")%string; [lra|].
  destruct (skill_certificationLevel skill =? "intermediate")%string; lra.
Qed.

Lemma calculateMatchScore_monotone_in_trust_witness :
  calculateMatchScore defaultConfig (withTrust workedSkill (Some 3)) 10 "high"
  <= calculateMatchScore defaultConfig (withTrust workedSkill (Some 7)) 10
       "high".
Proof.
  apply (calculateMatchScore_monotone_in_trust defaultConfig workedSkill 3 7
           10 "high").
  - reflexivity.
  - discriminate.
Defined.

(** X8.  Beyond the radius the distance no longer matters: for a positive
    radius, every distance at or past it scores what the radius itself
    scores. *)
Theorem calculateMatchScore_flat_beyond_radius (cfg : Config) (skill : Skill)
    (d : Q) (u : string) :
  0 < MAX_MATCH_RADIUS cfg ->
  MAX_MATCH_RADIUS cfg <= d ->
  calculateMatchScore cfg skill d u
  == calculateMatchScore cfg skill (MAX_MATCH_RADIUS cfg) u.
Proof.
  intros Hr Hd. unfold calculateMatchScore.
  pose proof (distanceScore_saturates _ _ Hr Hd) as H1.
  pose proof (distanceScore_saturates _ _ Hr (Qle_refl _)) as H2.
  set (t := orDefault (skill_trustScore skill) 5.0).
  set (m := urgencyMultiplier u).
  set (s1 := Qmax 0 (10 - d / MAX_MATCH_RADIUS cfg * 10)) in *.
  set (s2 := Qmax 0 (10 - MAX_MATCH_RADIUS cfg / MAX_MATCH_RADIUS cfg * 10))
    in *.
  assert (Hb : (0 + t * 0.4 + s1 * 0.3) * m == (0 + t * 0.4 + s2 * 0.3) * m)
    by (rewrite H1, H2; reflexivity).
  apply Q.min_compat; [reflexivity|].
  destruct (skill_certificationLevel skill =? "expert")%string;
    [now rewrite Hb|].
  destruct (skill_certificationLevel skill =? "intermediate")%string;
    now rewrite Hb.
Qed.

Lemma calculateMatchScore_flat_beyond_radius_witness :
  calculateMatchScore defaultConfig workedSkill 120 "high"
  == calculateMatchScore defaultConfig workedSkill
       (MAX_MATCH_RADIUS defaultConfig) "high".
Proof.
  apply (calculateMatchScore_flat_beyond_radius defaultConfig workedSkill 120
           "high").
  - reflexivity.
  - discriminate.
Defined.

(** X9.  Certification: all else equal, an expert never scores lower than an
    intermediate, and an intermediate never lower than a candidate with any
    other certification level. *)
Theorem calculateMatchScore_certification_order (cfg : Config) (skill : Skill)
    (d : Q) (u level : string) :
  level <> "expert" ->
  calculateMatchScore cfg (withCertification skill level) d u
  <= calculateMatchScore cfg (withCertification skill "intermediate") d u
  /\ calculateMatchScore cfg (withCertification skill "intermediate") d u
     <= calculateMatchScore cfg (withCertification skill "expert") d u.
Proof.
  intros Hlevel. unfold calculateMatchScore.
  cbn [withCertification skill_trustScore skill_certificationLevel].
  change ("intermediate" =? "expert")%string with false.
  change ("intermediate" =? "intermediate")%string with true.
  change ("expert" =? "expert")%string with true.
  cbv iota.
  set (b := (0 + orDefault (skill_trustScore skill) 5.0 * 0.4
             + Qmax 0 (10 - d / MAX_MATCH_RADIUS cfg * 10) * 0.3)
            * urgencyMultiplier u).
  split.
  - destruct (String.eqb_spec level "expert") as [He|_]; [contradiction|].
    destruct (level =? "intermediate")%string;
      apply Q.min_le_compat_l; lra.
  - apply Q.min_le_compat_l. lra.
Qed.

Lemma calculateMatchScore_certification_order_witness :
  calculateMatchScore defaultConfig (withCertification workedSkill "none") 10
    "high"
  <= calculateMatchScore defaultConfig
       (withCertification workedSkill "intermediate") 10 "high"
  /\ calculateMatchScore defaultConfig
       (withCertification workedSkill "intermediate") 10 "high"
     <= calculateMatchScore defaultConfig
          (withCertification workedSkill "expert") 10 "high".
Proof.
  apply (calculateMatchScore_certification_order defaultConfig workedSkill 10
           "high" "none").
  discriminate.
Defined.

(* ------------------------------------------------------------------ *)
(** ** Ranking *)

Section SortStable.
Context {A : Type}.
Variable compareFn : A -> A -> Q.
Variable sameKey : A -> bool.
Hypothesis sameKey_tie : forall x y,
  sameKey x = true -> sameKey y = true -> compareFn x y <= 0.


End SortStable.






(* ------------------------------------------------------------------ *)
(** ** What the pipeline writes *)

Lemma persistOne_appends (E : Env) (cfg : Config) (rid : string)
    (saved : list SavedMatch) (x : SkillMatch + ResourceMatch) (w w' : World)
    (r : Completion (list SavedMatch)) :
  scoredInRange cfg x ->
  persistOne E rid saved x w = (r, w') ->
  exists rows : list MatchRow,
    matches_table w' = matches_table w ++ rows
    /\ Forall (freshRow cfg rid) rows.
Proof.
  intros Hx.
  destruct x as [s|rm];
    unfold persistOne, persistSkill, persistResource, saveMatch,
      saveResourceMatch;
    step_effects;
    match goal with
    | |- context [if ?c then _ else _] => destruct c
    end;
    intros H; injection H as _ <-; cbn [matches_table];
    try (exists []; split; [now rewrite app_nil_r | constructor]);
    (eexists; split; [reflexivity|]);
    constructor; try constructor;
    unfold freshRow; cbn; repeat split; auto.
Qed.

Lemma forOf_persistOne_appends (E : Env) (cfg : Config) (rid : string)
    (l : list (SkillMatch + ResourceMatch)) :
  Forall (scoredInRange cfg) l ->
  forall (acc : list SavedMatch) (w w' : World)
         (r : Completion (list SavedMatch)),
    forOf l (persistOne E rid) acc w = (r, w') ->
    exists rows : list MatchRow,
      matches_table w' = matches_table w ++ rows
      /\ Forall (freshRow cfg rid) rows.
Proof.
  induction 1 as [|x l Hx Hl IH]; intros acc w w' r H.
  - injection H as _ <-. exists []. split; [now rewrite app_nil_r|constructor].
  - cbn [forOf] in H. unfold bind in H.
    destruct (persistOne E rid acc x w) as [[acc1|e] w1] eqn:Hp.
    + apply (persistOne_appends _ cfg) in Hp as (rows1 & Ht1 & Hf1); [|exact Hx].
      apply IH in H as (rows2 & Ht2 & Hf2).
      exists (rows1 ++ rows2). split.
      * now rewrite Ht2, Ht1, app_assoc.
      * now apply Forall_app.
    + injection H as _ <-.
      now apply (persistOne_appends _ cfg) in Hp.
Qed.

(** The records the matching phase hands over carry scores between the
    threshold and 10. *)
Lemma matchingPhase_records (E : Env) (cfg : Config) (sos : SOSData)
    (w : World) :
  exists (records : list (SkillMatch + ResourceMatch)) (calls : list HttpCall),
    matchingPhase E cfg sos w = (Normal records, afterCalls w calls)
    /\ Forall (scoredInRange cfg) records.
Proof.
  unfold matchingPhase, bind.
  rewrite resolveDisasterType_run. cbv beta iota.
  rewrite findSkillMatches_run. cbv beta iota.
  rewrite findResourceMatches_run. cbv beta iota.
  rewrite !afterCalls_app. unfold ret.
  eexists. eexists. split; [reflexivity|].
  unfold toPersist. apply Forall_app. split; apply Forall_forall; intros x Hx;
    apply in_map_iff in Hx as (m & <- & Hm); [|exact I].
  apply slice0_In in Hm.
  apply (proj1 (sort_In byScoreDesc m _)) in Hm.
  apply collectSkills_provenance in Hm
    as (i & tag & pool & s & _ & _ & _ & _ & _ & _ & Hthr & ->).
  cbn [scoredInRange matchOfSkill sm_matchScore]. split; [exact Hthr|].
  apply calculateMatchScore_le_10.
Qed.

Lemma reportAndNotify_table (E : Env) (rid : string)
    (saved : list SavedMatch) (w : World) :
  matches_table (snd (reportAndNotify E rid saved w)) = matches_table w.
Proof.
  unfold reportAndNotify, axios_put_status. step_effects.
  destruct (sosService E (clock w)); rewrite forOf_notify_run; reflexivity.
Qed.

Lemma processSOSRequest_table_grows (E : Env) (cfg : Config)
    (sos : SOSData) (w : World) :
  exists rows : list MatchRow,
    matches_table (snd (processSOSRequest E cfg sos w))
    = matches_table w ++ rows
    /\ Forall (freshRow cfg (sos_requestId sos)) rows.
Proof.
  rewrite processSOSRequest_phases.
  destruct (matchingPhase_records E cfg sos w) as (records & calls & Hm & Hr).
  unfold tryCatch at 1. unfold bind at 1. rewrite Hm. unfold bind at 1.
  destruct (forOf records (persistOne E (sos_requestId sos)) []
              (afterCalls w calls)) as [[saved|e] w4] eqn:Hp;
    apply (forOf_persistOne_appends _ cfg _ _ Hr) in Hp as (rows & Ht & Hf);
    exists rows; (split; [|exact Hf]); cbv beta iota.
  - pose proof (reportAndNotify_table E (sos_requestId sos) saved w4) as Hrn.
    destruct (reportAndNotify E (sos_requestId sos) saved w4) as [[x|e] w5];
      cbn [snd throw] in *; now rewrite Hrn, Ht.
  - cbn [snd throw]. exact Ht.
Qed.


(* ------------------------------------------------------------------ *)
(** ** Match ids stay unique *)

Lemma NoDup_snoc {A : Type} (l : list A) (a : A) :
  NoDup l -> ~ In a l -> NoDup (l ++ [a]).
Proof.
  intros Hl Ha.
  apply (Permutation_NoDup (l := a :: l)).
  - apply Permutation_cons_append.
  - now constructor.
Qed.

Lemma existsb_match_id_false (id : string) (rows : list MatchRow) :
  existsb (fun r => (match_id r =? id)%string) rows = false ->
  ~ In id (map match_id rows).
Proof.
  intros Hex Hin. apply in_map_iff in Hin as (r & Hid & Hr).
  assert (Ht : existsb (fun r => (match_id r =? id)%string) rows = true).
  { apply existsb_exists. exists r. split; [exact Hr|].
    now apply String.eqb_eq. }
  congruence.
Qed.

Lemma persistOne_ids (E : Env) (rid : string) (saved : list SavedMatch)
    (x : SkillMatch + ResourceMatch) (w w' : World)
    (r : Completion (list SavedMatch)) :
  persistOne E rid saved x w = (r, w') ->
  NoDup (matchIds w) -> NoDup (matchIds w').
Proof.
  unfold matchIds.
  destruct x as [s|rm];
    unfold persistOne, persistSkill, persistResource, saveMatch,
      saveResourceMatch;
    step_effects;
    match goal with
    | |- context [if ?c then _ else _] => destruct c eqn:Hc
    end;
    intros H Hnd; injection H as _ <-; cbn [matches_table]; trivial;
    apply andb_prop in Hc as [_ Hc]; apply negb_true_iff in Hc;
    rewrite map_app; cbn [map match_id];
    apply NoDup_snoc; trivial;
    now apply existsb_match_id_false.
Qed.

Lemma forOf_persistOne_ids (E : Env) (rid : string)
    (l : list (SkillMatch + ResourceMatch)) :
  forall (acc : list SavedMatch) (w w' : World)
         (r : Completion (list SavedMatch)),
    forOf l (persistOne E rid) acc w = (r, w') ->
    NoDup (matchIds w) -> NoDup (matchIds w').
Proof.
  induction l as [|x l IH]; intros acc w w' r H Hnd.
  - injection H as _ <-. exact Hnd.
  - cbn [forOf] in H. unfold bind in H.
    destruct (persistOne E rid acc x w) as [[acc1|e] w1] eqn:Hp.
    + eapply IH; [exact H|]. eapply persistOne_ids; eauto.
    + injection H as _ <-. eapply persistOne_ids; eauto.
Qed.

Lemma updated_ids (condition : MatchRow -> bool)
    (assign : nat -> MatchRow -> MatchRow) (now : nat) (rows : list MatchRow) :
  (forall r, match_id (assign now r) = match_id r) ->
  map match_id (updated condition assign now rows) = map match_id rows.
Proof.
  intros Hid. unfold updated. rewrite map_map. apply map_ext.
  intros r. destruct (condition r); [apply Hid | reflexivity].
Qed.

Lemma acceptRoute_table (E : Env) (matchId volunteerId : string) (w : World) :
  matches_table (snd (acceptRoute E matchId volunteerId w))
  = if storeAvailable E (clock w)
    then updated (ownedBy matchId volunteerId) setAccepted (clock w)
           (matches_table w)
    else matches_table w.
Proof.
  unfold acceptRoute, updated. step_effects.
  destruct (storeAvailable E (clock w)); [|reflexivity].
  destruct (filter (ownedBy matchId volunteerId) (matches_table w));
    reflexivity.
Qed.

Lemma rejectRoute_table (E : Env) (matchId volunteerId : string)
    (reason : option string) (w : World) :
  matches_table (snd (rejectRoute E matchId volunteerId reason w))
  = if storeAvailable E (clock w)
    then updated (ownedBy matchId volunteerId) (setRejected reason) (clock w)
           (matches_table w)
    else matches_table w.
Proof.
  unfold rejectRoute, updated. step_effects.
  destruct (storeAvailable E (clock w)); [|reflexivity].
  destruct (filter (ownedBy matchId volunteerId) (matches_table w));
    reflexivity.
Qed.

Lemma owned_at_most_one (matchId volunteerId : string) (rows : list MatchRow) :
  NoDup (map match_id rows) ->
  (length (filter (ownedBy matchId volunteerId) rows) <= 1)%nat.
Proof.
  induction rows as [|r rows IH]; intros Hnd; cbn [filter length]; [lia|].
  cbn [map] in Hnd. inversion Hnd as [|? ? Hnotin Hnd']; subst.
  destruct (ownedBy matchId volunteerId r) eqn:Ho; [|now apply IH].
  assert (Hnone : filter (ownedBy matchId volunteerId) rows = []).
  { destruct (filter (ownedBy matchId volunteerId) rows) as [|r' l] eqn:Hf;
      [reflexivity|].
    assert (Hin : In r' (filter (ownedBy matchId volunteerId) rows))
      by (rewrite Hf; now left).
    apply filter_In in Hin as [Hin Ho'].
    unfold ownedBy in Ho, Ho'.
    apply andb_prop in Ho as [Ho _]. apply andb_prop in Ho' as [Ho' _].
    apply String.eqb_eq in Ho, Ho'.
    exfalso. apply Hnotin. rewrite Ho, <- Ho'. now apply in_map. }
  rewrite Hnone. cbn [length]. lia.
Qed.

(** X13.  Match ids stay unique.  If no two rows of the table share a match
    id, then none do after a run of [processSOSRequest] (whatever its
    outcome), after an accept and after a reject; and an accept or reject
    then rewrites at most one row. *)
Theorem match_ids_stay_unique (E : Env) (cfg : Config) (sos : SOSData)
    (matchId volunteerId : string) (reason : option string) (w : World) :
  NoDup (matchIds w) ->
  NoDup (matchIds (snd (processSOSRequest E cfg sos w)))
  /\ NoDup (matchIds (snd (acceptRoute E matchId volunteerId w)))
  /\ NoDup (matchIds (snd (rejectRoute E matchId volunteerId reason w)))
  /\ (length (filter (ownedBy matchId volunteerId) (matches_table w)) <= 1)%nat.
Proof.
  intros Hnd. split; [|split; [|split]].
  - rewrite processSOSRequest_phases.
    destruct (matchingPhase_records E cfg sos w) as (records & calls & Hm & _).
    unfold tryCatch at 1. unfold bind at 1. rewrite Hm. unfold bind at 1.
    destruct (forOf records (persistOne E (sos_requestId sos)) []
                (afterCalls w calls)) as [[saved|e] w4] eqn:Hp;
      apply forOf_persistOne_ids in Hp; [|exact Hnd| |exact Hnd];
      cbv beta iota.
    + pose proof (reportAndNotify_table E (sos_requestId sos) saved w4) as Hrn.
      destruct (reportAndNotify E (sos_requestId sos) saved w4) as [[x|e] w5];
        cbn [snd throw] in *; unfold matchIds in *; now rewrite Hrn.
    + exact Hp.
  - unfold matchIds in *. rewrite acceptRoute_table.
    destruct (storeAvailable E (clock w)); [|exact Hnd].
    now rewrite updated_ids.
  - unfold matchIds in *. rewrite rejectRoute_table.
    destruct (storeAvailable E (clock w)); [|exact Hnd].
    now rewrite updated_ids.
  - now apply owned_at_most_one.
Qed.

Lemma match_ids_stay_unique_witness :
  NoDup (matchIds (snd (processSOSRequest medicEnv defaultConfig floodRequest
                          pendingWorld)))
  /\ NoDup (matchIds (snd (acceptRoute medicEnv "m1" "v1" pendingWorld)))
  /\ NoDup (matchIds (snd (rejectRoute medicEnv "m1" "v1" None pendingWorld)))
  /\ (length (filter (ownedBy "m1" "v1") (matches_table pendingWorld)) <= 1)%nat.
Proof.
  apply (match_ids_stay_unique medicEnv defaultConfig floodRequest "m1" "v1"
           None pendingWorld).
  simpl. constructor; [simpl; tauto | constructor].
Defined.

(* ------------------------------------------------------------------ *)
(** ** What the lifecycle routes write *)

Lemma Forall2_map_self {A : Type} (R : A -> A -> Prop) (f : A -> A)
    (l : list A) :
  (forall x, R x (f x)) -> Forall2 R l (map f l).
Proof.
  intros H. induction l as [|x l IH]; cbn [map]; constructor; auto.
Qed.

Lemma Forall2_same {A : Type} (R : A -> A -> Prop) (l : list A) :
  (forall x, R x x) -> Forall2 R l l.
Proof. intros H. induction l; constructor; auto. Qed.

Lemma sameMatch_refl (r : MatchRow) : sameMatch r r.
Proof. unfold sameMatch. repeat split. Qed.

Lemma updated_transitioned (matchId volunteerId : string)
    (assign : nat -> MatchRow -> MatchRow) (now : nat) (rows : list MatchRow) :
  (forall r, sameMatch r (assign now r)) ->
  Forall2 (transitioned matchId volunteerId) rows
          (updated (ownedBy matchId volunteerId) assign now rows).
Proof.
  intros Hsame. unfold updated. apply Forall2_map_self. intros r.
  unfold transitioned.
  destruct (ownedBy matchId volunteerId r); split; auto using sameMatch_refl.
  discriminate.
Qed.

(** X14.  Neither lifecycle route adds or removes a row, and neither
    rewrites a row whose match id or volunteer id differs from the caller's;
    on the rows they do rewrite, the ids, the matched skill or resource, the
    score, the distance, the trust score and the creation time are kept.
    Neither route issues an HTTP call. *)
Theorem lifecycle_routes_frame (E : Env) (matchId volunteerId : string)
    (reason : option string) (w : World) :
  Forall2 (transitioned matchId volunteerId) (matches_table w)
          (matches_table (snd (acceptRoute E matchId volunteerId w)))
  /\ Forall2 (transitioned matchId volunteerId) (matches_table w)
             (matches_table (snd (rejectRoute E matchId volunteerId reason w)))
  /\ http_log (snd (acceptRoute E matchId volunteerId w)) = http_log w
  /\ http_log (snd (rejectRoute E matchId volunteerId reason w)) = http_log w.
Proof.
  assert (Hrefl : Forall2 (transitioned matchId volunteerId) (matches_table w)
                          (matches_table w)).
  { apply Forall2_same. intros r. split; auto using sameMatch_refl. }
  split; [|split; [|split]].
  - rewrite acceptRoute_table.
    destruct (storeAvailable E (clock w)); [|exact Hrefl].
    apply updated_transitioned. intros r. unfold sameMatch. repeat split.
  - rewrite rejectRoute_table.
    destruct (storeAvailable E (clock w)); [|exact Hrefl].
    apply updated_transitioned. intros r. unfold sameMatch. repeat split.
  - unfold acceptRoute. step_effects.
    destruct (storeAvailable E (clock w)); [|reflexivity].
    destruct (filter (ownedBy matchId volunteerId) (matches_table w));
      reflexivity.
  - unfold rejectRoute. step_effects.
    destruct (storeAvailable E (clock w)); [|reflexivity].
    destruct (filter (ownedBy matchId volunteerId) (matches_table w));
      reflexivity.
Qed.

Lemma ownedBy_setAccepted (matchId volunteerId : string) (now : nat)
    (r : MatchRow) :
  ownedBy matchId volunteerId (setAccepted now r)
  = ownedBy matchId volunteerId r.
Proof. reflexivity. Qed.

Lemma In_updated (condition : MatchRow -> bool)
    (assign : nat -> MatchRow -> MatchRow) (now : nat) (rows : list MatchRow)
    (r' : MatchRow) :
  In r' (updated condition assign now rows) ->
  exists r, In r rows
            /\ r' = (if condition r then assign now r else r).
Proof.
  unfold updated. intros H. apply in_map_iff in H as (r & <- & Hr). eauto.
Qed.

(** X15.  Accept followed by reject.  When the store answers both
    statements, every row of the caller that was accepted and is then
    rejected ends with the status rejected and carries both timestamps: the
    acceptance time of the first call is not cleared by the second, and the
    rejection reason is the one given. *)
Theorem accept_then_reject_keeps_both_timestamps (E : Env)
    (matchId volunteerId : string) (reason : option string) (w : World)
    (r : MatchRow) :
  let w1 := snd (acceptRoute E matchId volunteerId w) in
  let w2 := snd (rejectRoute E matchId volunteerId reason w1) in
  storeAvailable E (clock w) = true ->
  storeAvailable E (clock w1) = true ->
  In r (matches_table w2) ->
  ownedBy matchId volunteerId r = true ->
  status r = "rejected"
  /\ accepted_at r = Some (clock w)
  /\ rejected_at r = Some (clock w1)
  /\ rejection_reason r = reason.
Proof.
  intros w1 w2 Hup Hup1 Hin Ho. subst w2.
  rewrite rejectRoute_table, Hup1 in Hin.
  apply In_updated in Hin as (r1 & Hin1 & ->).
  subst w1. rewrite acceptRoute_table, Hup in Hin1.
  apply In_updated in Hin1 as (r0 & _ & ->).
  destruct (ownedBy matchId volunteerId r0) eqn:Ho0.
  - rewrite ownedBy_setAccepted, Ho0. cbn. auto.
  - rewrite Ho0 in *. congruence.
Qed.

Lemma accept_then_reject_keeps_both_timestamps_witness :
  let w1 := snd (acceptRoute quietEnv "m1" "v1" pendingWorld) in
  let r := setRejected (Some "busy") 2 (setAccepted 1 pendingRow) in
  status r = "rejected"
  /\ accepted_at r = Some (clock pendingWorld)
  /\ rejected_at r = Some (clock w1)
  /\ rejection_reason r = Some "busy".
Proof.
  apply (accept_then_reject_keeps_both_timestamps quietEnv "m1" "v1"
           (Some "busy") pendingWorld
           (setRejected (Some "busy") 2 (setAccepted 1 pendingRow))).
  - reflexivity.
  - reflexivity.
  - left. reflexivity.
  - reflexivity.
Defined.

(** X16.  Notifications of the lifecycle routes.  An accept publishes
    exactly one [match.accepted] message, carrying the stored request id,
    when its update returned a row, and nothing otherwise (no owned row, or
    the store did not answer); a reject never publishes anything. *)
Theorem lifecycle_routes_messages (E : Env) (matchId volunteerId : string)
    (reason : option string) (w : World) :
  queue (snd (acceptRoute E matchId volunteerId w))
  = queue w
    ++ (if storeAvailable E (clock w)
        then acceptedEvents matchId volunteerId
               (filter (ownedBy matchId volunteerId) (matches_table w))
        else [])
  /\ queue (snd (rejectRoute E matchId volunteerId reason w)) = queue w.
Proof.
  split.
  - unfold acceptRoute, acceptedEvents. step_effects.
    destruct (storeAvailable E (clock w)); [|now rewrite app_nil_r].
    destruct (filter (ownedBy matchId volunteerId) (matches_table w));
      cbn [map snd queue]; [now rewrite app_nil_r | reflexivity].
  - unfold rejectRoute. step_effects.
    destruct (storeAvailable E (clock w)); [|reflexivity].
    destruct (filter (ownedBy matchId volunteerId) (matches_table w));
      reflexivity.
Qed.

(* ------------------------------------------------------------------ *)
(** ** [formatDuration] *)

Lemma Qfloor_unique (q : Q) (z : Z) :
  inject_Z z <= q -> q < inject_Z (z + 1) -> Qfloor q = z.
Proof.
  intros Hlo Hhi.
  pose proof (Qfloor_le q) as Hf1. pose proof (Qlt_floor q) as Hf2.
  assert (H1 : inject_Z z < inject_Z (Qfloor q + 1))
    by (eapply Qle_lt_trans; eauto).
  assert (H2 : inject_Z (Qfloor q) < inject_Z (z + 1))
    by (eapply Qle_lt_trans; eauto).
  rewrite <- Zlt_Qlt in H1, H2. lia.
Qed.

Lemma Qfloor_div_pos (x : Q) (k : Z) :
  (0 < k)%Z -> Qfloor (x / inject_Z k) = (Qfloor x / k)%Z.
Proof.
  intros Hk.
  assert (Hkq : 0 < inject_Z k) by (rewrite Zlt_Qlt in Hk; exact Hk).
  pose proof (Qfloor_le x) as Hf1. pose proof (Qlt_floor x) as Hf2.
  set (n := Qfloor x) in *.
  apply Qfloor_unique.
  - apply Qle_shift_div_l; [exact Hkq|].
    rewrite <- inject_Z_mult.
    apply Qle_trans with (inject_Z n); [|exact Hf1].
    rewrite <- Zle_Qle. pose proof (Z.mul_div_le n k Hk). lia.
  - apply Qlt_shift_div_r; [exact Hkq|].
    rewrite <- inject_Z_mult.
    apply Qlt_le_trans with (inject_Z (n + 1)); [exact Hf2|].
    rewrite <- Zle_Qle. pose proof (Z.mul_succ_div_gt n k Hk). lia.
Qed.

Lemma Qfloor_minus_Z (x : Q) (z : Z) :
  Qfloor (x - inject_Z z) = (Qfloor x - z)%Z.
Proof.
  pose proof (Qfloor_le x) as Hf1. pose proof (Qlt_floor x) as Hf2.
  apply Qfloor_unique.
  - unfold Z.sub. rewrite inject_Z_plus, inject_Z_opp. lra.
  - replace (Qfloor x - z + 1)%Z with ((Qfloor x + 1) + - z)%Z by lia.
    rewrite inject_Z_plus, inject_Z_opp. lra.
Qed.

Lemma js_rem_nonneg (x : Q) (k : Z) :
  0 <= x -> (0 < k)%Z ->
  js_rem x (inject_Z k) == x - inject_Z (k * (Qfloor x / k)).
Proof.
  intros Hx Hk. unfold js_rem, Qtrunc.
  assert (Hkq : 0 < inject_Z k) by (rewrite Zlt_Qlt in Hk; exact Hk).
  assert (Hq : 0 <= x / inject_Z k).
  { apply Qle_shift_div_l; [exact Hkq | lra]. }
  apply Qle_bool_iff in Hq. rewrite Hq.
  rewrite Qfloor_div_pos by exact Hk.
  rewrite inject_Z_mult. reflexivity.
Qed.

Lemma durationFields_nonneg (seconds : Q) :
  0 <= seconds ->
  durationFields seconds
  = ((Qfloor seconds / 3600)%Z,
     ((Qfloor seconds mod 3600) / 60)%Z,
     (Qfloor seconds mod 60)%Z).
Proof.
  intros Hs. unfold durationFields.
  change 3600 with (inject_Z 3600). change 60 with (inject_Z 60).
  rewrite !Qfloor_div_pos by lia.
  rewrite (Qfloor_comp _ _ (js_rem_nonneg seconds 3600 Hs eq_refl)).
  rewrite (Qfloor_comp _ _ (js_rem_nonneg seconds 60 Hs eq_refl)).
  rewrite !Qfloor_minus_Z.
  rewrite <- !Z.mod_eq by lia. reflexivity.
Qed.

(** X17.  For a non-negative duration, [formatDuration] prints the whole
    seconds of its argument (the fraction is dropped, not rounded) split
    into hours, minutes below 60 and seconds below 60: the three printed
    numbers add up to the floor of the argument. *)
Theorem formatDuration_fields (seconds : Q) :
  0 <= seconds ->
  let '(hours, minutes, secs) := durationFields seconds in
  (hours * 3600 + minutes * 60 + secs = Qfloor seconds)%Z
  /\ (0 <= hours)%Z
  /\ (0 <= minutes < 60)%Z
  /\ (0 <= secs < 60)%Z.
Proof.
  intros Hs. rewrite (durationFields_nonneg _ Hs).
  assert (Hn : (0 <= Qfloor seconds)%Z).
  { pose proof (Qlt_floor seconds) as Hf.
    assert (H : inject_Z 0 < inject_Z (Qfloor seconds + 1))
      by (eapply Qle_lt_trans; eauto).
    rewrite <- Zlt_Qlt in H. lia. }
  set (n := Qfloor seconds) in *.
  pose proof (Z.div_mod n 3600 ltac:(lia)) as H1.
  pose proof (Z.mod_pos_bound n 3600 ltac:(lia)) as H2.
  pose proof (Z.div_mod (n mod 3600) 60 ltac:(lia)) as H3.
  pose proof (Z.mod_pos_bound (n mod 3600) 60 ltac:(lia)) as H4.
  pose proof (Z.mod_pos_bound n 60 ltac:(lia)) as H5.
  assert (H6 : ((n mod 3600) mod 60 = n mod 60)%Z).
  { apply Z.mod_mod_divide. exists 60%Z. reflexivity. }
  pose proof (Z.div_pos n 3600 Hn ltac:(lia)) as H7.
  pose proof (Z.div_pos (n mod 3600) 60 ltac:(lia) ltac:(lia)) as H8.
  assert (H9 : ((n mod 3600) / 60 < 60)%Z)
    by (apply Z.div_lt_upper_bound; lia).
  repeat split; lia.
Qed.

Lemma formatDuration_fields_witness :
  let '(hours, minutes, secs) := durationFields (3725.9) in
  (hours * 3600 + minutes * 60 + secs = Qfloor (3725.9))%Z
  /\ (0 <= hours)%Z
  /\ (0 <= minutes < 60)%Z
  /\ (0 <= secs < 60)%Z.
Proof.
  apply (formatDuration_fields (3725.9)).
  discriminate.
Defined.

Lemma padStart2_twoDigits (z : Z) :
  (0 <= z < 100)%Z -> padStart2 (String_of z) = twoDigits z.
Proof.
  intros Hz.
  assert (Hall : forallb (fun n => (padStart2 (String_of (Z.of_nat n))
                                    =? twoDigits (Z.of_nat n))%string)
                         (seq 0 100) = true) by (vm_compute; reflexivity).
  rewrite forallb_forall in Hall.
  specialize (Hall (Z.to_nat z)).
  rewrite Z2Nat.id in Hall by lia.
  apply String.eqb_eq, Hall, in_seq. lia.
Qed.

(** X18.  Below one hundred hours, [formatDuration] prints exactly eight
    characters, [HH:MM:SS]: two digits each for the hours, the minutes and
    the seconds of the floor of its argument. *)
Theorem formatDuration_HH_MM_SS (seconds : Q) :
  0 <= seconds -> seconds < 360000 ->
  let n := Qfloor seconds in
  formatDuration seconds
  = (twoDigits (n / 3600) ++ ":" ++ twoDigits ((n mod 3600) / 60) ++ ":"
     ++ twoDigits (n mod 60))%string
  /\ String.length (formatDuration seconds) = 8%nat.
Proof.
  intros Hs Hlt n.
  assert (Hn : (0 <= n < 360000)%Z).
  { subst n. pose proof (Qlt_floor seconds) as Hf.
    pose proof (Qfloor_le seconds) as Hf'.
    assert (H1 : inject_Z 0 < inject_Z (Qfloor seconds + 1))
      by (eapply Qle_lt_trans; eauto).
    assert (H2 : inject_Z (Qfloor seconds) < inject_Z 360000)
      by (eapply Qle_lt_trans; eauto).
    rewrite <- Zlt_Qlt in H1, H2. lia. }
  assert (Heq : formatDuration seconds
                = (twoDigits (n / 3600) ++ ":" ++ twoDigits ((n mod 3600) / 60)
                   ++ ":" ++ twoDigits (n mod 60))%string).
  { unfold formatDuration. rewrite (durationFields_nonneg _ Hs). fold n.
    pose proof (Z.mod_pos_bound n 3600 ltac:(lia)) as H2.
    pose proof (Z.mod_pos_bound n 60 ltac:(lia)) as H5.
    rewrite !padStart2_twoDigits; [reflexivity | lia | |].
    - split; [apply Z.div_pos; lia | apply Z.div_lt_upper_bound; lia].
    - split; [apply Z.div_pos; lia | apply Z.div_lt_upper_bound; lia]. }
  split; [exact Heq|]. rewrite Heq. reflexivity.
Qed.

Lemma formatDuration_HH_MM_SS_witness :
  let n := Qfloor (3725.9) in
  formatDuration (3725.9)
  = (twoDigits (n / 3600) ++ ":" ++ twoDigits ((n mod 3600) / 60) ++ ":"
     ++ twoDigits (n mod 60))%string
  /\ String.length (formatDuration (3725.9)) = 8%nat.
Proof.
  apply (formatDuration_HH_MM_SS (3725.9)).
  - discriminate.
  - reflexivity.
Defined.

(* ------------------------------------------------------------------ *)
(** ** The read routes *)

Lemma StronglySorted_map {A B : Type} (R : B -> B -> Prop) (f : A -> B)
    (l : list A) :
  StronglySorted (fun a b => R (f a) (f b)) l -> StronglySorted R (map f l).
Proof.
  induction 1 as [|x l Hs IH Hall]; cbn [map]; constructor; [exact IH|].
  rewrite Forall_forall in *. intros y Hy.
  apply in_map_iff in Hy as (a & <- & Ha). now apply Hall.
Qed.

Lemma byMatchScoreDesc_iff (a b : MatchRow) :
  byMatchScoreDesc a b <= 0 <-> rowScoreDescending a b.
Proof. unfold byMatchScoreDesc, rowScoreDescending. split; intros; lra. Qed.

Lemma rowScoreDescending_total (a b : MatchRow) :
  rowScoreDescending a b \/ rowScoreDescending b a.
Proof.
  unfold rowScoreDescending.
  destruct (Qlt_le_dec (match_score a) (match_score b)); [right|left]; lra.
Qed.

Lemma rowScoreDescending_trans (a b c : MatchRow) :
  rowScoreDescending a b -> rowScoreDescending b c -> rowScoreDescending a c.
Proof. unfold rowScoreDescending. intros. lra. Qed.

(** X19.  [GET /matches].  Without a request id (absent or empty) the route
    answers 400 and asks the store nothing.  With one, while the store
    answers, it answers 200 with exactly the rows of that request, one view
    per row, ordered by descending score, and changes nothing. *)
Theorem listRoute_spec (E : Env) (rid : string) (w : World) :
  rid <> "" ->
  storeAvailable E (clock w) = true ->
  listRoute E None w = (Normal (Send 400 MissingParameterBody), w)
  /\ listRoute E (Some "") w = (Normal (Send 400 MissingParameterBody), w)
  /\ exists (views : list MatchView) (w' : World),
       listRoute E (Some rid) w = (Normal (Send 200 (MatchesBody views)), w')
       /\ Permutation views (viewsOfRequest rid (matches_table w))
       /\ StronglySorted viewScoreDescending views
       /\ matches_table w' = matches_table w
       /\ queue w' = queue w
       /\ http_log w' = http_log w.
Proof.
  intros Hrid Hup.
  split; [reflexivity|]. split; [reflexivity|].
  unfold listRoute, pool_select. step_effects.
  destruct (String.eqb_spec rid "") as [He|_]; [contradiction|].
  rewrite Hup.
  eexists. eexists. split; [reflexivity|].
  cbn [matches_table queue http_log]. split; [|split; [|auto]].
  - unfold viewsOfRequest, selectByRequest.
    apply Permutation_map, sort_perm.
  - apply StronglySorted_map. unfold selectByRequest.
    apply (sort_sorted byMatchScoreDesc rowScoreDescending
             byMatchScoreDesc_iff rowScoreDescending_total
             rowScoreDescending_trans).
Qed.

Lemma listRoute_spec_witness :
  exists (views : list MatchView) (w' : World),
    listRoute quietEnv (Some "req1") pendingWorld
    = (Normal (Send 200 (MatchesBody views)), w')
    /\ Permutation views (viewsOfRequest "req1" (matches_table pendingWorld))
    /\ StronglySorted viewScoreDescending views
    /\ matches_table w' = matches_table pendingWorld
    /\ queue w' = queue pendingWorld
    /\ http_log w' = http_log pendingWorld.
Proof.
  apply (listRoute_spec quietEnv "req1" pendingWorld).
  - discriminate.
  - reflexivity.
Defined.

Lemma statsRoute_ok (E : Env) (w w' : World) (b : StatsBody) :
  statsRoute E w = (Normal (Send 200 b), w') ->
  b = mkStatsBody (length (matches_table w))
                  (countStatus "accepted" (matches_table w))
                  (countStatus "rejected" (matches_table w))
                  (countStatus "pending" (matches_table w))
                  (averageTimeText (avgSeconds (matches_table w)))
  /\ matches_table w' = matches_table w
  /\ queue w' = queue w
  /\ http_log w' = http_log w.
Proof.
  unfold statsRoute, pool_select. step_effects.
  repeat match goal with
  | |- context [if storeAvailable E ?t then _ else _] =>
      destruct (storeAvailable E t); cbn [clock matches_table http_log queue]
  end;
  intros H; try discriminate H.
  injection H as <- <-. auto.
Qed.

Lemma count_known_statuses (rows : list MatchRow) :
  Forall knownStatus rows ->
  length rows
  = (countStatus "accepted" rows + countStatus "rejected" rows
     + countStatus "pending" rows)%nat.
Proof.
  unfold countStatus.
  induction 1 as [|r rows Hr _ IH]; [reflexivity|].
  cbn [filter length].
  destruct Hr as [Hs|[Hs|Hs]]; rewrite Hs; cbn [String.eqb Ascii.eqb Bool.eqb];
    cbn [length]; lia.
Qed.

(** X20.  The counters of [GET /stats] add up.  When the route answers 200
    on a table whose rows all carry one of the three statuses the service
    writes, the total equals accepted plus rejected plus pending; the route
    changes nothing. *)
Theorem statsRoute_counters_add_up (E : Env) (w w' : World) (b : StatsBody) :
  statsRoute E w = (Normal (Send 200 b), w') ->
  Forall knownStatus (matches_table w) ->
  totalMatches b
  = (acceptedMatches b + rejectedMatches b + pendingMatches b)%nat
  /\ totalMatches b = length (matches_table w)
  /\ matches_table w' = matches_table w
  /\ queue w' = queue w.
Proof.
  intros Hrun Hknown.
  apply statsRoute_ok in Hrun as (-> & Ht & Hq & _).
  cbn [totalMatches acceptedMatches rejectedMatches pendingMatches].
  repeat split; auto. now apply count_known_statuses.
Qed.

Lemma statsRoute_counters_add_up_witness :
  let b := mkStatsBody 1 0 0 1 "00:00:00" in
  totalMatches b
  = (acceptedMatches b + rejectedMatches b + pendingMatches b)%nat
  /\ totalMatches b = length (matches_table pendingWorld)
  /\ matches_table (snd (statsRoute quietEnv pendingWorld))
     = matches_table pendingWorld
  /\ queue (snd (statsRoute quietEnv pendingWorld)) = queue pendingWorld.
Proof.
  apply (statsRoute_counters_add_up quietEnv pendingWorld
           (snd (statsRoute quietEnv pendingWorld))
           (mkStatsBody 1 0 0 1 "00:00:00")).
  - vm_compute. reflexivity.
  - constructor; [left; reflexivity | constructor].
Defined.

Lemma formatDuration_zero (q : Q) : q == 0 -> formatDuration q = "00:00:00".
Proof.
  intros Hq. unfold formatDuration.
  rewrite durationFields_nonneg by lra.
  rewrite (Qfloor_comp _ _ Hq). reflexivity.
Qed.

(** X21.  The average of [GET /stats].  When the route answers 200, its
    [averageMatchTime] is ["00:00:00"] if no row has an acceptance time, and
    otherwise the mean of (acceptance time - creation time) over the rows
    that have one, whatever their status, printed by [formatDuration]; the
    zero test of the source does not change what is printed. *)
Theorem statsRoute_average (E : Env) (w w' : World) (b : StatsBody) :
  statsRoute E w = (Normal (Send 200 b), w') ->
  averageMatchTime b
  = match avgSeconds (matches_table w) with
    | Some mean => formatDuration mean
    | None => "00:00:00"
    end
  /\ (Forall (fun r => accepted_at r = None) (matches_table w) ->
      averageMatchTime b = "00:00:00").
Proof.
  intros Hrun. apply statsRoute_ok in Hrun as (-> & _).
  cbn [averageMatchTime]. split.
  - unfold averageTimeText.
    destruct (avgSeconds (matches_table w)) as [q|]; [|reflexivity].
    destruct (Qeq_bool q 0) eqn:Hq; [|reflexivity].
    apply Qeq_bool_iff in Hq. symmetry. now apply formatDuration_zero.
  - intros Hnone.
    assert (Hf : filter (fun r => isSome (accepted_at r)) (matches_table w)
                 = []).
    { induction Hnone as [|r rows Hr _ IH]; [reflexivity|].
      cbn [filter]. now rewrite Hr. }
    unfold avgSeconds. now rewrite Hf.
Qed.

Lemma statsRoute_average_witness :
  let b := mkStatsBody 1 0 0 1 "00:00:00" in
  averageMatchTime b
  = match avgSeconds (matches_table pendingWorld) with
    | Some mean => formatDuration mean
    | None => "00:00:00"
    end
  /\ (Forall (fun r => accepted_at r = None) (matches_table pendingWorld) ->
      averageMatchTime b = "00:00:00").
Proof.
  apply (statsRoute_average quietEnv pendingWorld
           (snd (statsRoute quietEnv pendingWorld))
           (mkStatsBody 1 0 0 1 "00:00:00")).
  vm_compute. reflexivity.
Defined.

(* ------------------------------------------------------------------ *)
(** ** Only three statuses *)

Lemma updated_knownStatus (condition : MatchRow -> bool)
    (assign : nat -> MatchRow -> MatchRow) (now : nat) (rows : list MatchRow) :
  (forall r, knownStatus (assign now r)) ->
  Forall knownStatus rows ->
  Forall knownStatus (updated condition assign now rows).
Proof.
  intros Ha Hrows. unfold updated. apply Forall_forall. intros r' Hin.
  apply in_map_iff in Hin as (r & <- & Hr).
  rewrite Forall_forall in Hrows.
  destruct (condition r); auto.
Qed.

(** X22.  The status column only ever holds pending, accepted or rejected:
    if that is so for every row of the table, it is still so after a run of
    [processSOSRequest] (whatever its outcome), after an accept and after a
    reject. *)
Theorem status_stays_known (E : Env) (cfg : Config) (sos : SOSData)
    (matchId volunteerId : string) (reason : option string) (w : World) :
  Forall knownStatus (matches_table w) ->
  Forall knownStatus (matches_table (snd (processSOSRequest E cfg sos w)))
  /\ Forall knownStatus
       (matches_table (snd (acceptRoute E matchId volunteerId w)))
  /\ Forall knownStatus
       (matches_table (snd (rejectRoute E matchId volunteerId reason w))).
Proof.
  intros Hk. split; [|split].
  - destruct (processSOSRequest_table_grows E cfg sos w) as (rows & -> & Hf).
    apply Forall_app. split; [exact Hk|].
    eapply Forall_impl; [|exact Hf].
    intros r (_ & Hs & _). now left.
  - rewrite acceptRoute_table.
    destruct (storeAvailable E (clock w)); [|exact Hk].
    apply updated_knownStatus; [|exact Hk].
    intros r. right. left. reflexivity.
  - rewrite rejectRoute_table.
    destruct (storeAvailable E (clock w)); [|exact Hk].
    apply updated_knownStatus; [|exact Hk].
    intros r. right. right. reflexivity.
Qed.

Lemma status_stays_known_witness :
  Forall knownStatus
    (matches_table (snd (processSOSRequest medicEnv defaultConfig floodRequest
                           pendingWorld)))
  /\ Forall knownStatus
       (matches_table (snd (acceptRoute medicEnv "m1" "v1" pendingWorld)))
  /\ Forall knownStatus
       (matches_table (snd (rejectRoute medicEnv "m1" "v1" None pendingWorld))).
Proof.
  apply (status_stays_known medicEnv defaultConfig floodRequest "m1" "v1" None
           pendingWorld).
  constructor; [left; reflexivity | constructor].
Defined.

(* ------------------------------------------------------------------ *)
(** ** Saved matches and their rows *)

Lemma persistOne_saved (E : Env) (rid : string) (acc saved : list SavedMatch)
    (x : SkillMatch + ResourceMatch) (w w' : World) :
  persistOne E rid acc x w = (Normal saved, w') ->
  exists (s : SavedMatch) (row : MatchRow),
    saved = acc ++ [s]
    /\ recordOf s = x
    /\ matches_table w' = matches_table w ++ [row]
    /\ rowOfSaved rid s row.
Proof.
  destruct x as [m|m];
    unfold persistOne, persistSkill, persistResource, saveMatch,
      saveResourceMatch;
    step_effects;
    match goal with
    | |- context [if ?c then _ else _] => destruct c
    end;
    intros H; try discriminate H; injection H as <- <-;
    eexists; eexists; (split; [reflexivity|]); (split; [reflexivity|]);
    (split; [reflexivity|]); unfold rowOfSaved; cbn; repeat split.
Qed.

Lemma forOf_persistOne_saved (E : Env) (rid : string)
    (l : list (SkillMatch + ResourceMatch)) :
  forall (acc saved : list SavedMatch) (w w' : World),
    forOf l (persistOne E rid) acc w = (Normal saved, w') ->
    exists (news : list SavedMatch) (rows : list MatchRow),
      saved = acc ++ news
      /\ map recordOf news = l
      /\ matches_table w' = matches_table w ++ rows
      /\ Forall2 (rowOfSaved rid) news rows.
Proof.
  induction l as [|x l IH]; intros acc saved w w' H.
  - injection H as <- <-. exists [], []. rewrite !app_nil_r. auto.
  - cbn [forOf] in H. unfold bind in H.
    destruct (persistOne E rid acc x w) as [[acc1|e] w1] eqn:Hp;
      [|discriminate H].
    apply persistOne_saved in Hp as (s & row & -> & Hrec & Ht1 & Hrow).
    apply IH in H as (news & rows & -> & Hmap & Ht2 & Hall).
    exists (s :: news), (row :: rows).
    rewrite <- !app_assoc. cbn [app map]. rewrite Hrec, Hmap, Ht2, Ht1.
    rewrite <- app_assoc. repeat split; auto.
Qed.

Lemma reportAndNotify_result (E : Env) (rid : string)
    (saved : list SavedMatch) (w : World) :
  fst (reportAndNotify E rid saved w) = Normal saved.
Proof.
  unfold reportAndNotify, axios_put_status. step_effects.
  destruct (sosService E (clock w)); rewrite forOf_notify_run; reflexivity.
Qed.

Lemma searchedTags_nonempty (dt : string) (req : list string) :
  ~ In "" req -> ~ In "" (searchedTags dt req).
Proof.
  intros Hreq. rewrite searchedTags_eq.
  destruct req as [|r req]; [|exact Hreq].
  unfold DISASTER_SKILL_MAP. cbn [assoc].
  repeat match goal with
  | |- context [(?k =? dt)%string] =>
      destruct (k =? dt)%string;
      [cbn [orEmpty In]; intros H;
       repeat destruct H as [H|H]; try discriminate H; exact H|]
  end.
  cbn [orEmpty In]. tauto.
Qed.

(** The matching phase, in full: the calls it makes and where its records
    come from. *)
Lemma matchingPhase_full (E : Env) (cfg : Config) (sos : SOSData) (w : World) :
  let dt := resolvedType E w in
  let loc := sos_location sos in
  let radius := MAX_MATCH_RADIUS cfg in
  exists (sk : list SkillMatch) (rs : list ResourceMatch) (n1 n2 : nat),
    matchingPhase E cfg sos w
    = (Normal (toPersist sk rs),
       afterCalls w (GET_disaster (sos_disasterId sos)
                     :: repeat (GET_skills dt loc radius) n1
                     ++ repeat (GET_resources dt loc radius) n2))
    /\ (forall m, In m sk ->
          exists tag, In tag (searchedTags dt (orEmpty (sos_requiredSkills sos)))
                      /\ sm_skillType m = tag)
    /\ (forall m, In m rs ->
          In (rm_resourceType m) (orEmpty (sos_requiredResources sos))).
Proof.
  intros dt loc radius. unfold matchingPhase, bind.
  rewrite resolveDisasterType_run. cbv beta iota.
  rewrite findSkillMatches_run. cbv beta iota.
  rewrite findResourceMatches_run. cbv beta iota.
  rewrite !afterCalls_app. unfold ret. cbn [app].
  eexists. eexists. eexists. eexists. split; [reflexivity|]. split.
  - intros m Hm. apply slice0_In in Hm.
    apply (proj1 (sort_In byScoreDesc m _)) in Hm.
    apply collectSkills_provenance in Hm
      as (i & tag & pool & s & Hn & _ & _ & Ht & _ & _ & _ & ->).
    exists tag. split; [|exact Ht].
    eapply nth_error_In; exact Hn.
  - intros m Hm. apply slice0_In in Hm.
    apply (proj1 (sort_In byDistanceAsc m _)) in Hm.
    apply collectResources_provenance in Hm
      as (i & ty & pool & r & Hn & _ & _ & Ht & _ & ->).
    cbn [matchOfResource rm_resourceType]. rewrite Ht.
    eapply nth_error_In; exact Hn.
Qed.

(** A run that returns: what it returns and what it has written. *)
Lemma processSOSRequest_normal (E : Env) (cfg : Config) (sos : SOSData)
    (w w1 : World) (saved : list SavedMatch) :
  processSOSRequest E cfg sos w = (Normal saved, w1) ->
  exists (records : list (SkillMatch + ResourceMatch)) (w3 : World)
         (rows : list MatchRow),
    matchingPhase E cfg sos w = (Normal records, w3)
    /\ map recordOf saved = records
    /\ matches_table w1 = matches_table w ++ rows
    /\ Forall2 (rowOfSaved (sos_requestId sos)) saved rows.
Proof.
  rewrite processSOSRequest_phases.
  destruct (matchingPhase_run E cfg sos w) as (sk & rs & calls & Hm & _).
  unfold tryCatch at 1. unfold bind at 1. rewrite Hm. unfold bind at 1.
  destruct (forOf (toPersist sk rs) (persistOne E (sos_requestId sos)) []
              (afterCalls w calls)) as [[saved4|e] w4] eqn:Hp;
    cbv beta iota; [|discriminate].
  pose proof (reportAndNotify_result E (sos_requestId sos) saved4 w4) as Hres.
  pose proof (reportAndNotify_table E (sos_requestId sos) saved4 w4) as Htab.
  destruct (reportAndNotify E (sos_requestId sos) saved4 w4) as [c w5].
  cbn [fst snd] in *. subst c. intros H. injection H as <- <-.
  apply forOf_persistOne_saved in Hp as (news & rows & -> & Hmap & Ht & Hall).
  exists (toPersist sk rs), (afterCalls w calls), rows.
  cbn [app] in *. rewrite Htab, Ht. auto.
Qed.

(* ------------------------------------------------------------------ *)
(** ** The manual endpoint *)

Lemma filter_saved_skills (s1 : list SavedMatch) :
  forall sk : list SkillMatch,
    map recordOf s1 = map inl sk ->
    (forall m, In m sk -> sm_skillType m <> "") ->
    filter hasSkillType s1 = s1 /\ filter hasResourceType s1 = [].
Proof.
  induction s1 as [|s s1 IH]; intros [|m sk] Hmap Hty;
    try discriminate Hmap; [auto|].
  cbn [map] in Hmap. injection Hmap as Hs Hrest.
  destruct s as [m' id|m' id]; [|discriminate Hs].
  cbn [recordOf] in Hs. injection Hs as ->.
  destruct (IH sk Hrest) as (H1 & H2); [intros; apply Hty; now right|].
  cbn [filter hasSkillType hasResourceType].
  destruct (String.eqb_spec (sm_skillType m) "") as [He|_].
  - exfalso. apply (Hty m); [now left | exact He].
  - cbn [negb]. now rewrite H1, H2.
Qed.

Lemma filter_saved_resources (s2 : list SavedMatch) :
  forall rs : list ResourceMatch,
    map recordOf s2 = map inr rs ->
    (forall m, In m rs -> rm_resourceType m <> "") ->
    filter hasSkillType s2 = [] /\ filter hasResourceType s2 = s2.
Proof.
  induction s2 as [|s s2 IH]; intros [|m rs] Hmap Hty;
    try discriminate Hmap; [auto|].
  cbn [map] in Hmap. injection Hmap as Hs Hrest.
  destruct s as [m' id|m' id]; [discriminate Hs|].
  cbn [recordOf] in Hs. injection Hs as ->.
  destruct (IH rs Hrest) as (H1 & H2); [intros; apply Hty; now right|].
  cbn [filter hasSkillType hasResourceType].
  destruct (String.eqb_spec (rm_resourceType m) "") as [He|_].
  - exfalso. apply (Hty m); [now left | exact He].
  - cbn [negb]. now rewrite H1, H2.
Qed.

Lemma partition_saved (saved : list SavedMatch) (sk : list SkillMatch)
    (rs : list ResourceMatch) :
  map recordOf saved = toPersist sk rs ->
  (forall m, In m sk -> sm_skillType m <> "") ->
  (forall m, In m rs -> rm_resourceType m <> "") ->
  filter hasSkillType saved ++ filter hasResourceType saved = saved.
Proof.
  unfold toPersist. intros Hmap Hsk Hrs.
  apply map_eq_app in Hmap as (s1 & s2 & -> & H1 & H2).
  destruct (filter_saved_skills s1 sk H1 Hsk) as (A1 & A2).
  destruct (filter_saved_resources s2 rs H2 Hrs) as (B1 & B2).
  rewrite !filter_app, A1, A2, B1, B2, app_nil_r. reflexivity.
Qed.

(** X23.  [POST /match] loses nothing.  When no required skill and no
    required resource is the empty string and the route answers 200, the
    saved matches returned by the pipeline are exactly the [matches] of the
    answer followed by its [resourceMatches]; the former are all skill
    matches and the latter all resource matches. *)
Theorem matchRoute_loses_nothing (E : Env) (cfg : Config)
    (body : MatchRequestBody) (w w' : World) (resp : MatchResponse) :
  ~ In "" (orEmpty (body_requiredSkills body)) ->
  ~ In "" (orEmpty (body_requiredResources body)) ->
  matchRoute E cfg body w = (Normal (Send 200 resp), w') ->
  fst (matchRequest E cfg body w)
  = Normal (resp_matches resp ++ resp_resourceMatches resp)
  /\ Forall isSavedSkill (resp_matches resp)
  /\ Forall isSavedResource (resp_resourceMatches resp)
  /\ resp_requestId resp = body_requestId body.
Proof.
  intros Hsk Hrs. unfold matchRoute, tryCatch, bind.
  destruct (matchRequest E cfg body w) as [[saved|e] w1] eqn:Hrun;
    [|discriminate].
  intros H. injection H as <- _. cbn [fst resp_matches resp_resourceMatches
                                       resp_requestId].
  split; [|split; [|split; [|reflexivity]]].
  - f_equal. unfold matchRequest in Hrun.
    apply processSOSRequest_normal in Hrun as (records & w3 & rows & Hm & Hmap & _).
    match type of Hm with
    | matchingPhase _ _ ?sos _ = _ =>
        destruct (matchingPhase_full E cfg sos w)
          as (sk & rs & n1 & n2 & Hm' & Hs & Hr)
    end.
    rewrite Hm in Hm'. injection Hm' as -> _.
    cbn [sos_requiredSkills sos_requiredResources] in *.
    symmetry. apply (partition_saved saved sk rs Hmap).
    + intros m Hin He. destruct (Hs m Hin) as (tag & Htag & Ht).
      apply (searchedTags_nonempty (resolvedType E w) _ Hsk).
      now rewrite <- He, Ht.
    + intros m Hin He. apply Hrs. rewrite <- He. now apply Hr.
  - apply Forall_forall. intros s Hin. apply filter_In in Hin as [_ Hin].
    destruct s; [exact I | discriminate Hin].
  - apply Forall_forall. intros s Hin. apply filter_In in Hin as [_ Hin].
    destruct s; [discriminate Hin | exact I].
Qed.

Lemma matchRoute_loses_nothing_witness :
  let resp :=
    match fst (matchRoute medicEnv defaultConfig manualRequest emptyWorld) with
    | Normal (Send _ r) => r
    | _ => mkMatchResponse "" [] [] 0
    end in
  fst (matchRequest medicEnv defaultConfig manualRequest emptyWorld)
  = Normal (resp_matches resp ++ resp_resourceMatches resp)
  /\ Forall isSavedSkill (resp_matches resp)
  /\ Forall isSavedResource (resp_resourceMatches resp)
  /\ resp_requestId resp = body_requestId manualRequest.
Proof.
  apply (matchRoute_loses_nothing medicEnv defaultConfig manualRequest
           emptyWorld
           (snd (matchRoute medicEnv defaultConfig manualRequest emptyWorld))).
  - simpl. tauto.
  - simpl. intros [H|[]]. discriminate H.
  - vm_compute. reflexivity.
Defined.

Lemma forOf_persistOne_log (E : Env) (rid : string)
    (l : list (SkillMatch + ResourceMatch)) :
  forall (acc : list SavedMatch) (w w' : World)
         (r : Completion (list SavedMatch)),
    forOf l (persistOne E rid) acc w = (r, w') ->
    http_log w' = http_log w.
Proof.
  induction l as [|x l IH]; intros acc w w' r H.
  - now injection H as _ <-.
  - cbn [forOf] in H. unfold bind in H.
    destruct (persistOne E rid acc x w) as [[acc1|e] w1] eqn:Hp;
      apply persistOne_frame in Hp as (_ & Hh & _).
    + apply IH in H. congruence.
    + injection H as _ <-. exact Hh.
Qed.

Lemma reportAndNotify_log (E : Env) (rid : string)
    (saved : list SavedMatch) (w : World) :
  http_log (snd (reportAndNotify E rid saved w))
  = http_log w ++ [PUT_status rid "matched"].
Proof.
  unfold reportAndNotify, axios_put_status. step_effects.
  destruct (sosService E (clock w)); rewrite forOf_notify_run; reflexivity.
Qed.

(** The HTTP calls of one run of the pipeline all go out for the disaster
    type resolved at its start and for the configured radius. *)
Lemma processSOSRequest_calls (E : Env) (cfg : Config) (sos : SOSData)
    (w : World) :
  exists calls : list HttpCall,
    http_log (snd (processSOSRequest E cfg sos w))
    = http_log w ++ GET_disaster (sos_disasterId sos) :: calls
    /\ Forall (callUses (resolvedType E w) (MAX_MATCH_RADIUS cfg)) calls.
Proof.
  rewrite processSOSRequest_phases.
  destruct (matchingPhase_full E cfg sos w) as (sk & rs & n1 & n2 & Hm & _).
  unfold tryCatch at 1. unfold bind at 1. rewrite Hm. unfold bind at 1.
  assert (Hrep : forall c n,
             callUses (resolvedType E w) (MAX_MATCH_RADIUS cfg) c ->
             Forall (callUses (resolvedType E w) (MAX_MATCH_RADIUS cfg))
                    (repeat c n)).
  { intros c n Hc. induction n; cbn [repeat]; constructor; auto. }
  match goal with
  | |- context [forOf ?l ?b ?a ?x] =>
      destruct (forOf l b a x) as [[saved|e] w4] eqn:Hp
  end; apply forOf_persistOne_log in Hp; cbv beta iota.
  - pose proof (reportAndNotify_log E (sos_requestId sos) saved w4) as Hl.
    destruct (reportAndNotify E (sos_requestId sos) saved w4) as [[x|e] w5];
      cbn [snd throw] in *; rewrite Hl, Hp; unfold afterCalls;
      cbn [http_log]; rewrite <- app_assoc; cbn [app];
      (eexists; split; [reflexivity|]);
      repeat (apply Forall_app; split); try (apply Hrep; cbn; auto);
      constructor; cbn; auto.
  - cbn [snd throw]. rewrite Hp. unfold afterCalls. cbn [http_log].
    eexists. split; [reflexivity|].
    apply Forall_app; split; apply Hrep; cbn; auto.
Qed.

(** X24.  The manual endpoint does not read the request's [disasterType]
    and [radius]: changing them changes nothing, and every registry call of
    the run goes out for the disaster type answered by the disaster service
    (["flood"] when that call fails) and for the configured radius. *)
Theorem matchRoute_ignores_type_and_radius (E : Env) (cfg : Config)
    (body : MatchRequestBody) (dt : option string) (radius : option Q)
    (w : World) :
  matchRoute E cfg (withTypeAndRadius body dt radius) w
  = matchRoute E cfg body w
  /\ exists calls : list HttpCall,
       http_log (snd (matchRoute E cfg body w))
       = http_log w ++ GET_disaster (body_disasterId body) :: calls
       /\ Forall (callUses (resolvedType E w) (MAX_MATCH_RADIUS cfg)) calls.
Proof.
  split; [reflexivity|].
  unfold matchRoute, tryCatch, bind, matchRequest.
  set (sos := mkSOSData _ _ _ _ _ _).
  destruct (processSOSRequest_calls E cfg sos w) as (calls & Hl & Hc).
  exists calls. split; [|exact Hc].
  destruct (processSOSRequest E cfg sos w) as [[saved|e] w1];
    cbn [snd ret] in *; exact Hl.
Qed.

(* ------------------------------------------------------------------ *)
(** ** The queue consumer *)

(** X25.  The consumer of the SOS queue never throws: a message that does
    not parse, a message without data and a run whose persistence fails are
    all absorbed.  A message with another event leaves the world as it was;
    a [sos.request.created] message with data leaves it as
    [processSOSRequest] does, partial rows of a failed run included.  In
    every case the table only grows, by rows that are pending. *)
Theorem consumeSOS_absorbs_failures (E : Env) (cfg : Config)
    (message : Delivery) (w : World) :
  fst (consumeSOS E cfg message w) = Normal tt
  /\ snd (consumeSOS E cfg message w)
     = match message with
       | Parsed event (Some sosData) =>
           if (event =? "sos.request.created")%string
           then snd (processSOSRequest E cfg sosData w)
           else w
       | Parsed _ None => w
       | Unparseable => w
       end
  /\ exists rows : list MatchRow,
       matches_table (snd (consumeSOS E cfg message w))
       = matches_table w ++ rows
       /\ Forall (fun r => status r = "pending") rows.
Proof.
  assert (Hsame : exists rows : list MatchRow,
             matches_table w = matches_table w ++ rows
             /\ Forall (fun r => status r = "pending") rows).
  { exists []. split; [now rewrite app_nil_r | constructor]. }
  unfold consumeSOS, tryCatch.
  destruct message as [|event [sosData|]]; [auto| |].
  - destruct (event =? "sos.request.created")%string; [|auto].
    unfold bind.
    destruct (processSOSRequest_table_grows E cfg sosData w)
      as (rows & Ht & Hf).
    destruct (processSOSRequest E cfg sosData w) as [[saved|e] w1];
      cbn [fst snd ret] in *;
      (split; [reflexivity|]); (split; [reflexivity|]);
      exists rows; (split; [exact Ht|]);
      (eapply Forall_impl; [|exact Hf]); intros r (_ & Hs & _); exact Hs.
  - destruct (event =? "sos.request.created")%string; auto.
Qed.

(* ------------------------------------------------------------------ *)
(** ** After a run *)

Lemma Forall2_In_l {A B : Type} (R : A -> B -> Prop) (l1 : list A)
    (l2 : list B) (a : A) :
  Forall2 R l1 l2 -> In a l1 -> exists b, In b l2 /\ R a b.
Proof.
  induction 1 as [|x y l1 l2 Hxy _ IH]; intros Hin; [contradiction|].
  destruct Hin as [<-|Hin].
  - exists y. split; [now left | exact Hxy].
  - destruct (IH Hin) as (b & Hb & Hr). exists b. split; [now right | exact Hr].
Qed.



(** X27.  Persist, then accept.  After a run of [processSOSRequest] that
    returned, the volunteer of any saved match (the owner, for a resource
    match) can accept it while the store answers: the route answers 200 and
    every row of that match id and volunteer is accepted afterwards. *)
Theorem saved_match_can_be_accepted (E : Env) (cfg : Config) (sos : SOSData)
    (w w1 : World) (saved : list SavedMatch) (s : SavedMatch) :
  processSOSRequest E cfg sos w = (Normal saved, w1) ->
  In s saved ->
  storeAvailable E (clock w1) = true ->
  let accept := acceptRoute E (saved_matchId s) (savedVolunteer s) w1 in
  succeeded (fst accept) = true
  /\ forall r, In r (matches_table (snd accept)) ->
               ownedBy (saved_matchId s) (savedVolunteer s) r = true ->
               status r = "accepted" /\ accepted_at r = Some (clock w1).
Proof.
  intros Hrun Hs Hup accept. subst accept.
  apply processSOSRequest_normal in Hrun as (records & w3 & rows & _ & _ & Ht & Hall).
  destruct (Forall2_In_l _ _ _ s Hall Hs) as (r0 & Hr0 & Hid & _ & Hvol & _).
  destruct (acceptRoute_run E (saved_matchId s) (savedVolunteer s) w1 Hup)
    as (A1 & _ & A3).
  split.
  - rewrite A1. apply existsb_exists. exists r0. split.
    + rewrite Ht. apply in_or_app. now right.
    + unfold ownedBy. rewrite Hid, Hvol, !String.eqb_refl. reflexivity.
  - intros r Hin Ho. rewrite A3 in Hin.
    apply In_updated in Hin as (r1 & _ & ->).
    destruct (ownedBy (saved_matchId s) (savedVolunteer s) r1) eqn:Ho1.
    + cbn. auto.
    + congruence.
Qed.

Lemma saved_match_can_be_accepted_witness :
  let w1 := snd (processSOSRequest medicEnv defaultConfig floodRequest
                   emptyWorld) in
  let s := SavedResource boatMatch "match-z" in
  let accept := acceptRoute medicEnv (saved_matchId s) (savedVolunteer s) w1 in
  succeeded (fst accept) = true
  /\ forall r, In r (matches_table (snd accept)) ->
               ownedBy (saved_matchId s) (savedVolunteer s) r = true ->
               status r = "accepted" /\ accepted_at r = Some (clock w1).
Proof.
  apply (saved_match_can_be_accepted medicEnv defaultConfig floodRequest
           emptyWorld
           (snd (processSOSRequest medicEnv defaultConfig floodRequest
                   emptyWorld))
           floodAllSaved (SavedResource boatMatch "match-z")).
  - vm_compute. reflexivity.
  - vm_compute. right. right. left. reflexivity.
  - reflexivity.
Defined.
